(** * Token analytics evaluator: answer extraction, classification and grading

    A shallow embedding of [src/eval.py] ([TokenAnalyticsEvaluator]) and
    [src/grading_scale.py] ([AnalyticsGradingScale]).

    Modelling conventions.
    - Text is a Rocq [string]; the character helpers below follow Python's
      [str] semantics on ASCII text (code points below 128).
    - Python [int] and [float] values are both modelled as rationals [Q]
      (an exact idealisation of the float arithmetic of the source).
    - Python dictionaries with fixed keys become records; the raised
      exceptions of the source become the [Raise] branch of [outcome].
    - Timestamps ([datetime.now()]) are not modelled. *)

From Stdlib Require Import Bool List String Ascii ZArith QArith Qabs Qround Lia Lqa.
Import ListNotations.
Open Scope string_scope.

(** ** Characters and strings, following Python's [str] *)

Module Py.

Definition code (c : ascii) : nat := nat_of_ascii c.

Local Notation "a <=? b" := (Nat.leb a b) : nat_scope.
Local Open Scope nat_scope.

(** [c.isdigit()] restricted to ASCII; also the class [\d] and [[0-9]]. *)
Definition is_digit (c : ascii) : bool :=
  (48 <=? code c) && (code c <=? 57).

(** [c.isspace()] on ASCII: [\t \n \v \f \r], [\x1c]-[\x1f] and the space;
    the regex class [\s] of a [str] pattern is the same set. *)
Definition is_space (c : ascii) : bool :=
  ((9 <=? code c) && (code c <=? 13)) || ((28 <=? code c) && (code c <=? 32)).

Definition is_upper (c : ascii) : bool := (65 <=? code c) && (code c <=? 90).
Definition is_lower (c : ascii) : bool := (97 <=? code c) && (code c <=? 122).

(** The regex class [\w]: letters, digits and the underscore. *)
Definition is_word (c : ascii) : bool :=
  is_upper c || is_lower c || is_digit c || Ascii.eqb c "_"%char.

Definition upper_char (c : ascii) : ascii :=
  if is_lower c then ascii_of_nat (code c - 32) else c.
Definition lower_char (c : ascii) : ascii :=
  if is_upper c then ascii_of_nat (code c + 32) else c.

(** [s.upper()] and [s.lower()]. *)
Definition upper (s : list ascii) : list ascii := map upper_char s.
Definition lower (s : list ascii) : list ascii := map lower_char s.

Fixpoint starts_with (p s : list ascii) : bool :=
  match p, s with
  | [], _ => true
  | c :: p', d :: s' => Ascii.eqb c d && starts_with p' s'
  | _ :: _, [] => false
  end.

(** [needle in hay] for strings. *)
Fixpoint contains (needle hay : list ascii) : bool :=
  starts_with needle hay ||
  match hay with
  | [] => false
  | _ :: hay' => contains needle hay'
  end.

(** [s.split()] with no argument: split on runs of whitespace, dropping
    empty pieces. [cur] is the word being read, reversed. *)
Fixpoint split_aux (cur : list ascii) (s : list ascii) : list (list ascii) :=
  match s with
  | [] => match cur with [] => [] | _ => [rev cur] end
  | c :: s' =>
      if is_space c then
        match cur with
        | [] => split_aux [] s'
        | _ => rev cur :: split_aux [] s'
        end
      else split_aux (c :: cur) s'
  end.
Definition split (s : list ascii) : list (list ascii) := split_aux [] s.

Definition L (s : string) : list ascii := list_ascii_of_string s.
Definition S_ (l : list ascii) : string := string_of_list_ascii l.

(** Python's truthiness of a string: [not text] holds for the empty string. *)
Definition is_empty (s : string) : bool :=
  match s with EmptyString => true | _ => false end.

End Py.

(** ** A backtracking matcher for the regular expressions of the source

    Python's [re] is a backtracking engine: alternatives are tried left to
    right, [?] and [*] are greedy and give characters back when the rest of
    the pattern fails. The matcher is written in continuation-passing style
    so that exactly this search order is kept. The state is the previous
    character (for [\b]) and the rest of the input. *)

Module Re.
Import Py.

Inductive regex : Type :=
| RClass (p : ascii -> bool)          (* one character of a class *)
| RLit (l : list ascii)               (* a literal *)
| RSeq (r1 r2 : regex)
| RAlt (r1 r2 : regex)                (* r1|r2 *)
| ROpt (r : regex)                    (* r?, greedy *)
| RStar (p : ascii -> bool)           (* [class]*, greedy *)
| RRep (n : nat) (p : ascii -> bool)  (* [class]{n} *)
| RBound.                             (* \b *)

Definition RPlus (p : ascii -> bool) : regex := RSeq (RClass p) (RStar p).

Definition word_opt (c : option ascii) : bool :=
  match c with Some c => is_word c | None => false end.

Section Matcher.
Context {A : Type}.

Fixpoint m_lit (l : list ascii) (prev : option ascii) (s : list ascii)
    (k : option ascii -> list ascii -> option A) : option A :=
  match l, s with
  | [], _ => k prev s
  | c :: l', d :: s' => if Ascii.eqb c d then m_lit l' (Some d) s' k else None
  | _ :: _, [] => None
  end.

Fixpoint m_star (p : ascii -> bool) (prev : option ascii) (s : list ascii)
    (k : option ascii -> list ascii -> option A) : option A :=
  match s with
  | c :: s' =>
      if p c then
        match m_star p (Some c) s' k with
        | Some x => Some x
        | None => k prev s
        end
      else k prev s
  | [] => k prev s
  end.

Fixpoint m_rep (n : nat) (p : ascii -> bool) (prev : option ascii) (s : list ascii)
    (k : option ascii -> list ascii -> option A) : option A :=
  match n with
  | O => k prev s
  | Datatypes.S n' =>
      match s with
      | c :: s' => if p c then m_rep n' p (Some c) s' k else None
      | [] => None
      end
  end.

Fixpoint m (r : regex) (prev : option ascii) (s : list ascii)
    (k : option ascii -> list ascii -> option A) : option A :=
  match r with
  | RClass p =>
      match s with
      | c :: s' => if p c then k (Some c) s' else None
      | [] => None
      end
  | RLit l => m_lit l prev s k
  | RSeq r1 r2 => m r1 prev s (fun pv s' => m r2 pv s' k)
  | RAlt r1 r2 =>
      match m r1 prev s k with
      | Some x => Some x
      | None => m r2 prev s k
      end
  | ROpt r =>
      match m r prev s k with
      | Some x => Some x
      | None => k prev s
      end
  | RStar p => m_star p prev s k
  | RRep n p => m_rep n p prev s k
  | RBound =>
      if xorb (word_opt prev) (word_opt (hd_error s)) then k prev s else None
  end.

End Matcher.

(** [re.search(r1 r2, text).group(1)] where group 1 is exactly [r1]: the
    leftmost start position at which [r1] followed by [r2] matches. *)
Fixpoint search_group (r1 r2 : regex) (prev : option ascii) (s : list ascii)
    : option (list ascii) :=
  match m r1 prev s
          (fun pv s1 => m r2 pv s1 (fun _ _ => Some (firstn (List.length s - List.length s1) s)))
  with
  | Some g => Some g
  | None =>
      match s with
      | [] => None
      | c :: s' => search_group r1 r2 (Some c) s'
      end
  end.

Definition search (r1 r2 : regex) (s : list ascii) : option (list ascii) :=
  search_group r1 r2 None s.

(** [re.sub(r, repl, text)]. The patterns the source passes to [re.sub]
    never match the empty string, so a match always consumes a character;
    [fuel] is the length of the text. Lookarounds ([\b]) see the original
    text, so the previous character is taken from the input. *)
Fixpoint sub_aux (fuel : nat) (r : regex) (repl : list ascii)
    (prev : option ascii) (s : list ascii) : list ascii :=
  match fuel with
  | O => s
  | Datatypes.S f =>
      match s with
      | [] => []
      | c :: s' =>
          match m r prev s (fun pv rest => Some (pv, rest)) with
          | Some (pv, rest) =>
              if Nat.ltb (List.length rest) (List.length s) then app repl (sub_aux f r repl pv rest)
              else c :: sub_aux f r repl (Some c) s'
          | None => c :: sub_aux f r repl (Some c) s'
          end
      end
  end.

Definition sub (r : regex) (repl : list ascii) (s : list ascii) : list ascii :=
  sub_aux (List.length s) r repl None s.

End Re.

(** ** [TokenAnalyticsEvaluator] ([src/eval.py]) *)

Module Eval.
Import Py Re.

(** The Python values the evaluator handles: [None], a number ([int] or
    [float]), a string, or a list of strings (a ranking). *)
Inductive value : Type :=
| VNone
| VNum (x : Q)
| VStr (s : string)
| VList (l : list string).

Definition Qltb (a b : Q) : bool := negb (Qle_bool b a).

Fixpoint leqb (a b : list ascii) : bool :=
  match a, b with
  | [], [] => true
  | c :: a', d :: b' => Ascii.eqb c d && leqb a' b'
  | _, _ => false
  end.

(** [w in l] for a list of strings. *)
Definition mem (w : list ascii) (l : list (list ascii)) : bool := existsb (leqb w) l.
Definition smem (w : string) (l : list string) : bool := existsb (String.eqb w) l.

(** *** Regular expressions of the extractors *)

Definition is_sign (c : ascii) : bool := Ascii.eqb c "+"%char || Ascii.eqb c "-"%char.
Definition is_dot (c : ascii) : bool := Ascii.eqb c "."%char.

(** [([+-]?([0-9]*[.])?[0-9]+)] *)
Definition number_re : regex :=
  RSeq (ROpt (RClass is_sign))
       (RSeq (ROpt (RSeq (RStar is_digit) (RClass is_dot))) (RPlus is_digit)).

(** [\s*%] *)
Definition pct_suffix : regex := RSeq (RStar is_space) (RLit (L "%")).
(** [\s*(?:percent|percentage)] *)
Definition pct_words_suffix : regex :=
  RSeq (RStar is_space) (RAlt (RLit (L "percent")) (RLit (L "percentage"))).
Definition empty_re : regex := RLit [].

(** [\b(w1|w2|...)\b] *)
Definition word_alts (ws : list regex) : regex :=
  RSeq RBound (RSeq (fold_right RAlt (RClass (fun _ => false)) ws) RBound).

Definition qualifiers_re : regex :=
  word_alts [RLit (L "about"); RLit (L "approximately"); RLit (L "roughly");
             RLit (L "around")].

(** [\b(ranked|ranking|order|by|as|follows?|is|are)\b] *)
Definition ranking_words_re : regex :=
  word_alts [RLit (L "ranked"); RLit (L "ranking"); RLit (L "order"); RLit (L "by");
             RLit (L "as"); RSeq (RLit (L "follow")) (ROpt (RLit (L "s")));
             RLit (L "is"); RLit (L "are")].

(** The class [[->>\-\s]]: a leading [-] is a literal, and no [-] stands
    between two characters, so the class is [-], [>] and whitespace. *)
Definition rank_sep (c : ascii) : bool :=
  Ascii.eqb c "-"%char || Ascii.eqb c ">"%char || is_space c.
Definition comma_space (c : ascii) : bool := Ascii.eqb c ","%char || is_space c.

(** [\d{4}-\d{2}-\d{2}] *)
Definition date_re : regex :=
  RSeq (RRep 4 is_digit)
       (RSeq (RLit (L "-")) (RSeq (RRep 2 is_digit) (RSeq (RLit (L "-")) (RRep 2 is_digit)))).

(** *** [float(s)] on the strings matched by [number_re] *)

Definition digits_val (l : list ascii) : Z :=
  fold_left (fun acc c => (acc * 10 + Z.of_nat (code c - 48))%Z) l 0%Z.

Fixpoint pow10 (k : nat) : positive :=
  match k with O => 1%positive | Datatypes.S k' => (10 * pow10 k')%positive end.

Fixpoint split_dot (l : list ascii) : list ascii * option (list ascii) :=
  match l with
  | [] => ([], None)
  | c :: l' =>
      if is_dot c then ([], Some l')
      else let (a, b) := split_dot l' in (c :: a, b)
  end.

Definition unsigned_val (l : list ascii) : Q :=
  match split_dot l with
  | (ip, None) => inject_Z (digits_val ip)
  | (ip, Some fp) => Qmake (digits_val (app ip fp)) (pow10 (List.length fp))
  end.

Definition parse_float (g : list ascii) : Q :=
  match g with
  | c :: l => if Ascii.eqb c "-"%char then Qopp (unsigned_val l)
              else if Ascii.eqb c "+"%char then unsigned_val l
              else unsigned_val g
  | [] => 0
  end.

(** *** The extractors. A match of [number_re] always has the syntax of a
    Python float literal, so the [except ValueError] branches never run. *)

(** [_extract_numeric_percentage] *)
Definition extract_numeric_percentage (text : string) : value :=
  if is_empty text then VNone else
  match search number_re pct_suffix (L text) with
  | Some g => VNum (parse_float g)
  | None =>
      match search number_re pct_words_suffix (lower (L text)) with
      | Some g => VNum (parse_float g)
      | None => VNone
      end
  end.

(** [_extract_plain_number] *)
Definition extract_plain_number (text : string) : value :=
  if is_empty text then VNone else
  let t := lower (L text) in
  let t := sub (RLit (L "$")) [] t in
  let t := sub qualifiers_re [] t in
  let is_negative :=
    if contains (L "decrease") t || contains (L "decreased") t || contains (L "down") t
    then true else false in
  match search number_re empty_re t with
  | Some g =>
      let v := parse_float g in
      if is_negative && Qltb 0 v then VNum (Qopp v) else VNum v
  | None => VNone
  end.

Definition default_tokens : list string := ["SOL"; "ETH"; "TAO"].

(** [_extract_token_name] with its default token list. *)
Definition extract_token_name (text : string) : value :=
  if is_empty text then VNone else
  let t := upper (L text) in
  match find (fun tok => contains (L tok) t) default_tokens with
  | Some tok => VStr tok
  | None => VNone
  end.

(** [_extract_date_from_text] *)
Definition extract_date_from_text (text : string) : value :=
  if is_empty text then VNone else
  match search date_re empty_re (L text) with
  | Some g => VStr (S_ g)
  | None => VNone
  end.

(** The text [_normalize_ranking] scans, after its three substitutions. *)
Definition ranking_clean (text : string) : list ascii :=
  let t := upper (L text) in
  let t := sub ranking_words_re [] t in
  let t := sub (RPlus rank_sep) (L " ") t in
  sub (RPlus comma_space) (L " ") t.

(** First pass: the words of the cleaned text that are tokens, in order,
    without repetition. *)
Definition ranking_first_pass (t : list ascii) : list (list ascii) :=
  fold_left (fun found w =>
               if mem w (map L default_tokens) && negb (mem w found)
               then app found [w] else found)
            (split t) [].

(** Second pass: append the tokens of the canonical list that occur
    anywhere in the cleaned text and were not found yet. *)
Definition ranking_second_pass (t : list ascii) (found : list (list ascii))
    : list (list ascii) :=
  fold_left (fun found tok =>
               if contains tok t && negb (mem tok found)
               then app found [tok] else found)
            (map L default_tokens) found.

(** [_normalize_ranking] *)
Definition normalize_ranking (text : string) : value :=
  if is_empty text then VNone else
  let t := ranking_clean text in
  let found := ranking_first_pass t in
  let found :=
    match found with
    | [] => found
    | _ => if Nat.ltb (List.length found) 3 then ranking_second_pass t found else found
    end in
  match found with
  | [] => VNone
  | _ => VList (map S_ found)
  end.

(** *** [_calculate_accuracy] *)

Record accuracy : Type := mkAccuracy {
  acc_correct : bool;
  acc_absolute_error : option Q;
  acc_error_type : string
}.

Definition list_eqb (a b : list string) : bool :=
  if list_eq_dec string_dec a b then true else false.

Definition supper (s : string) : string := S_ (upper (L s)).

(** The [category] argument is unused, as in the source. *)
Definition calculate_accuracy (predicted truth : value) (category : string) : accuracy :=
  match truth, predicted with
  | VNum t, VNum p =>
      let e := Qabs (p - t) in
      mkAccuracy (Qle_bool e 1) (Some e) "numeric_error"
  | VStr t, VStr p =>
      mkAccuracy (String.eqb (supper p) (supper t)) None "string_mismatch"
  | VList t, VList p =>
      mkAccuracy (list_eqb p t) None "list_mismatch"
  | _, _ => mkAccuracy false None "type_mismatch"
  end.

(** *** The hallucination check of [evaluate_agent_response] (its lines
    after "Determine if response is a hallucination"). *)

Definition valid_tokens : list string := ["SOL"; "ETH"; "TAO"].
Definition string_allow_list : list string :=
  ["SOL"; "ETH"; "TAO"; "2025-06-11"; "2025-06-23"].

Definition detect_hallucination (predicted : value) (category : string) : bool :=
  match predicted with
  | VNone => true
  | VNum x =>
      if String.eqb category "percentage_threshold" && (Qltb 100 x || Qltb x 0) then true
      else if String.eqb category "price_change" && (Qltb 1000 x || Qltb x (-1000)) then true
      else if String.eqb category "volatility" && Qltb 1000 x then true
      else false
  | VStr s => negb (smem s string_allow_list)
  | VList l => negb (forallb (fun tok => smem tok valid_tokens) l)
  end.

(** *** Queries, results and [evaluate_agent_response] *)

(** A query of the store. [q_explanation] is [None] when the record has no
    [explanation] key. *)
Record query : Type := mkQuery {
  q_id : string;
  q_question : string;
  q_category : string;
  q_truth : value;
  q_explanation : option string
}.

(** The result dictionary. [r_explanation] is [None] for the records of
    missing responses, which have no [explanation] key; [r_agent_response]
    is [None] there too. *)
Record result : Type := mkResult {
  r_query_id : string;
  r_question : string;
  r_category : string;
  r_truth : value;
  r_explanation : option string;
  r_agent_name : string;
  r_agent_response : option string;
  r_predicted : value;
  r_correct : bool;
  r_absolute_error : option Q;
  r_error_type : string;
  r_is_hallucination : bool
}.

Inductive py_error : Type := ValueError | KeyError.

Inductive outcome (A : Type) : Type :=
| Ok (a : A)
| Raise (e : py_error).
Arguments Ok {A} a.
Arguments Raise {A} e.

Definition bind {A B} (x : outcome A) (f : A -> outcome B) : outcome B :=
  match x with Ok a => f a | Raise e => Raise e end.
Notation "x <- m ;; k" := (bind m (fun x => k)) (at level 61, m at next level, right associativity).

(** The choice of extractor, by category and (lower-cased) question. *)
Definition extract_predicted (category question agent_response : string) : value :=
  let has w := contains (L w) (L question) in
  if String.eqb category "percentage_threshold" then
    extract_numeric_percentage agent_response
  else if String.eqb category "price_change" then
    extract_plain_number agent_response
  else if String.eqb category "volatility" then
    if has "most volatile" || has "which token" then extract_token_name agent_response
    else extract_plain_number agent_response
  else if smem category ["volume_analysis"; "performance_comparison"] then
    if has "ranking" || has "rank" then normalize_ranking agent_response
    else extract_token_name agent_response
  else if String.eqb category "price_analysis" then
    if has "date" then extract_date_from_text agent_response
    else if has "ranking" || has "rank" then normalize_ranking agent_response
    else extract_token_name agent_response
  else VNone.

Definition find_query (queries : list query) (query_id : string) : outcome query :=
  match find (fun q => String.eqb q.(q_id) query_id) queries with
  | Some q => Ok q
  | None => Raise ValueError
  end.

(** [evaluate_agent_response]; reading [query['explanation']] raises
    [KeyError] when the key is absent. *)
Definition evaluate_agent_response (queries : list query)
    (query_id agent_response agent_name : string) : outcome result :=
  query <- find_query queries query_id ;;
  let category := query.(q_category) in
  let question := S_ (lower (L query.(q_question))) in
  let predicted := extract_predicted category question agent_response in
  let accuracy := calculate_accuracy predicted query.(q_truth) category in
  let is_hallucination := detect_hallucination predicted category in
  match query.(q_explanation) with
  | None => Raise KeyError
  | Some explanation =>
      Ok (mkResult query_id query.(q_question) category query.(q_truth)
                   (Some explanation) agent_name (Some agent_response) predicted
                   accuracy.(acc_correct) accuracy.(acc_absolute_error)
                   accuracy.(acc_error_type) is_hallucination)
  end.

(** *** [run_evaluation] *)

Record summary : Type := mkSummary {
  s_agent_name : string;
  s_total_queries : nat;
  s_correct_answers : nat;
  s_accuracy_percentage : Q;
  s_hallucination_count : nat;
  s_hallucination_rate : Q;
  s_average_absolute_error : Q;
  s_results : list result
}.

(** The agent responses, a [dict] from query id to text: an association
    list with distinct keys. *)
Definition responses := list (string * string).

Definition lookup (rs : responses) (k : string) : option string :=
  option_map snd (find (fun p => String.eqb (fst p) k) rs).

Definition missing_result (q : query) (agent_name : string) : result :=
  mkResult q.(q_id) q.(q_question) q.(q_category) q.(q_truth) None agent_name None
           VNone false None "missing_response" false.

Fixpoint collect (all : list query) (qs : list query) (rs : responses)
    (agent_name : string) : outcome (list result) :=
  match qs with
  | [] => Ok []
  | q :: qs' =>
      r <- match lookup rs q.(q_id) with
           | Some resp => evaluate_agent_response all q.(q_id) resp agent_name
           | None => Ok (missing_result q agent_name)
           end ;;
      rest <- collect all qs' rs agent_name ;;
      Ok (r :: rest)
  end.

Definition count {A} (p : A -> bool) (l : list A) : nat := List.length (filter p l).

Definition mean (l : list Q) : Q :=
  fold_left Qplus l 0 / inject_Z (Z.of_nat (List.length l)).

Definition run_evaluation (queries : list query) (agent_responses : responses)
    (agent_name : string) : outcome summary :=
  results <- collect queries queries agent_responses agent_name ;;
  let total := List.length results in
  let correct := count r_correct results in
  let halluc := count r_is_hallucination results in
  let errors := flat_map (fun r => match r.(r_absolute_error) with
                                   | Some e => [e] | None => [] end) results in
  let pct n := if Nat.ltb 0 total
               then inject_Z (Z.of_nat n) / inject_Z (Z.of_nat total) * 100 else 0 in
  Ok (mkSummary agent_name total correct (pct correct) halluc (pct halluc)
                (match errors with [] => 0 | _ => mean errors end) results).

End Eval.

(** ** [AnalyticsGradingScale] ([src/grading_scale.py]) *)

Module Grading.
Import Eval.

Inductive grade_level : Type :=
| A_PLUS | A | A_MINUS | B_PLUS | B | B_MINUS | C_PLUS | C | C_MINUS
| D_PLUS | D | D_MINUS | F.

(** [self.grade_thresholds], in the insertion order in which the [dict] is
    iterated. *)
Definition grade_thresholds : list (grade_level * Q) :=
  [(A_PLUS, 95); (A, 90); (A_MINUS, 85); (B_PLUS, 80); (B, 75); (B_MINUS, 70);
   (C_PLUS, 65); (C, 60); (C_MINUS, 55); (D_PLUS, 50); (D, 45); (D_MINUS, 40);
   (F, 0)].

Scheme Equality for grade_level.

(** The threshold of a grade in [grade_thresholds]. *)
Definition threshold_of (g : grade_level) : Q :=
  match find (fun p => grade_level_beq (fst p) g) grade_thresholds with
  | Some (_, t) => t
  | None => 0
  end.

(** The feedback lines; each constructor stands for the message the source
    appends (its emoji prefix left out). *)
Inductive feedback : Type :=
| FbNoResponse                 (* "No response provided" *)
| FbCorrect                    (* "Correct answer" *)
| FbErrorMagnitude (e : Q)     (* f"Error magnitude: {e:.2f}" *)
| FbHallucination              (* "Hallucination detected" *)
| FbNumeric                    (* "Numeric precision issue" *)
| FbString                     (* "String matching issue" *)
| FbList                       (* "List ordering issue" *)
| FbType.                      (* "Type conversion issue" *)

Record grade_record : Type := mkGrade {
  g_query_id : string;
  g_category : string;
  g_grade : grade_level;
  g_score : Q;
  g_accuracy_score : Q;
  g_precision_score : Q;
  g_quality_score : Q;
  g_penalties : list string;
  g_bonuses : list string;
  g_feedback : list feedback
}.

(** Python's [round(x, 2)]: the nearest multiple of 0.01, ties to even. *)
Definition round_half_even (y : Q) : Z :=
  let n := Qnum y in
  let d := Zpos (Qden y) in
  let fl := (n / d)%Z in
  let r := (n mod d)%Z in
  match Z.compare (2 * r) d with
  | Lt => fl
  | Gt => (fl + 1)%Z
  | Eq => if Z.even fl then fl else (fl + 1)%Z
  end.

Definition py_round2 (x : Q) : Q := Qmake (round_half_even (x * 100)) 100.

(** Python's [min(a, b)] and [max(a, b)]: the first argument unless the
    second is strictly smaller (larger). *)
Definition py_min (a b : Q) : Q := if Qltb b a then b else a.
Definition py_max (a b : Q) : Q := if Qltb a b then b else a.

(** [_calculate_accuracy_score] *)
Definition calculate_accuracy_score (r : result) : Q :=
  if r.(r_correct) then 100 else
  match String.eqb r.(r_error_type) "numeric_error", r.(r_absolute_error) with
  | true, Some error_magnitude =>
      match r.(r_truth) with
      | VNum truth_value =>
          if negb (Qeq_bool truth_value 0) then
            let relative_error := Qabs (error_magnitude / truth_value) in
            if Qle_bool relative_error 0.01 then 95
            else if Qle_bool relative_error 0.05 then 85
            else if Qle_bool relative_error 0.10 then 70
            else if Qle_bool relative_error 0.25 then 50
            else if Qle_bool relative_error 0.50 then 30
            else 10
          else if Qle_bool error_magnitude 1 then 90
          else if Qle_bool error_magnitude 5 then 70
          else if Qle_bool error_magnitude 10 then 50
          else 20
      | _ =>
          if Qle_bool error_magnitude 1 then 90
          else if Qle_bool error_magnitude 5 then 70
          else if Qle_bool error_magnitude 10 then 50
          else 20
      end
  | _, _ =>
      if String.eqb r.(r_error_type) "string_mismatch" then 30
      else if String.eqb r.(r_error_type) "list_mismatch" then 40
      else if String.eqb r.(r_error_type) "type_mismatch" then 20
      else 0
  end.

(** [_calculate_precision_score] *)
Definition calculate_precision_score (r : result) : Q :=
  match r.(r_predicted) with
  | VNone => 0
  | VNum _ => 100
  | VStr s =>
      if smem s ["SOL"; "ETH"; "TAO"] then 100
      else if Nat.eqb (String.length s) 10 then 100
      else 50
  | VList l => match l with [] => 50 | _ => 100 end
  end.

(** [_calculate_quality_score] *)
Definition calculate_quality_score (r : result) : Q :=
  let q := 100 in
  let q := if r.(r_is_hallucination) then q - 50 else q in
  let q := match r.(r_predicted) with VNone => q - 30 | _ => q end in
  let q := if r.(r_correct) then q + 10 else q in
  let q := match r.(r_predicted), r.(r_absolute_error) with
           | VNum _, Some e => if Qle_bool e 0.1 then q + 5 else q
           | _, _ => q
           end in
  py_max 0 (py_min 100 q).

(** [_calculate_final_score] *)
Definition calculate_final_score (accuracy precision quality : Q) : Q :=
  let weighted_score := accuracy * 0.6 + precision * 0.25 + quality * 0.15 in
  py_round2 weighted_score.

Fixpoint first_grade (table : list (grade_level * Q)) (score : Q) : grade_level :=
  match table with
  | [] => F
  | (g, threshold) :: table' =>
      if Qle_bool threshold score then g else first_grade table' score
  end.

(** [_get_grade] *)
Definition get_grade (score : Q) : grade_level := first_grade grade_thresholds score.

(** [_add_feedback]: the lines appended after the sub-scores. *)
Definition added_feedback (r : result) : list feedback :=
  (if r.(r_correct) then [FbCorrect] else []) ++
  (match r.(r_absolute_error) with Some e => [FbErrorMagnitude e] | None => [] end) ++
  (if r.(r_is_hallucination) then [FbHallucination] else []) ++
  (if String.eqb r.(r_error_type) "numeric_error" then [FbNumeric]
   else if String.eqb r.(r_error_type) "string_mismatch" then [FbString]
   else if String.eqb r.(r_error_type) "list_mismatch" then [FbList]
   else if String.eqb r.(r_error_type) "type_mismatch" then [FbType]
   else []).

(** [calculate_question_score] *)
Definition calculate_question_score (r : result) : grade_record :=
  if String.eqb r.(r_error_type) "missing_response" then
    mkGrade r.(r_query_id) r.(r_category) F 0 0 0 0 [] [] [FbNoResponse]
  else if r.(r_is_hallucination) then
    mkGrade r.(r_query_id) r.(r_category) F 0 0 0 0 ["Hallucination detected"] [] []
  else
    let accuracy_score := calculate_accuracy_score r in
    let precision_score := calculate_precision_score r in
    let quality_score := calculate_quality_score r in
    let final_score := calculate_final_score accuracy_score precision_score quality_score in
    mkGrade r.(r_query_id) r.(r_category) (get_grade final_score) final_score
            accuracy_score precision_score quality_score [] [] (added_feedback r).

End Grading.


(** ** [grade_evaluation] ([src/grading_scale.py]) *)

Module Report.
Import Eval Grading.

(** [GradeLevel] iterated in definition order. *)
Definition all_grades : list grade_level :=
  [A_PLUS; A; A_MINUS; B_PLUS; B; B_MINUS; C_PLUS; C; C_MINUS; D_PLUS; D; D_MINUS; F].

Record category_perf : Type := mkCategoryPerf {
  cp_average_score : Q;
  cp_grade : grade_level;
  cp_count : nat
}.

(** [np.mean] of a list: [None] stands for the [nan] numpy returns on an
    empty list. *)
Definition np_mean (l : list Q) : option Q :=
  match l with
  | [] => None
  | _ => Some (fold_left Qplus l 0 / inject_Z (Z.of_nat (List.length l)))
  end.

Record summary_stats : Type := mkStats {
  st_average_accuracy_score : option Q;
  st_average_precision_score : option Q;
  st_average_quality_score : option Q;
  st_questions_with_penalties : nat;
  st_questions_with_bonuses : nat
}.

Record grading_report : Type := mkReport {
  gr_overall_score : Q;
  gr_overall_grade : grade_level;
  gr_total_questions : nat;
  gr_category_performance : list (string * category_perf);
  gr_grade_distribution : list (grade_level * nat);
  gr_detailed_results : list grade_record;
  gr_summary_stats : summary_stats
}.

(** [category_scores]: a [dict] from category to its scores and count, in
    insertion order. *)
Definition category_table := list (string * (list Q * nat)).

Fixpoint add_category_score (cs : category_table) (category : string) (score : Q)
    : category_table :=
  match cs with
  | [] => [(category, ([score], 1%nat))]
  | (c, (scores, n)) :: cs' =>
      if String.eqb c category then (c, (app scores [score], Datatypes.S n)) :: cs'
      else (c, (scores, n)) :: add_category_score cs' category score
  end.

(** The loop over [evaluation_results]: graded results, category table and
    running total. *)
Definition grade_loop (results : list result)
    : list grade_record * category_table * Q :=
  fold_left (fun acc r =>
               let '(graded, cs, total) := acc in
               let g := calculate_question_score r in
               (app graded [g], add_category_score cs r.(r_category) g.(g_score),
                total + g.(g_score)))
            results ([], [], 0).

Definition sumQ (l : list Q) : Q := fold_left Qplus l 0.

Fixpoint incr_grade (dist : list (grade_level * nat)) (g : grade_level)
    : list (grade_level * nat) :=
  match dist with
  | [] => []
  | (g', n) :: dist' =>
      if grade_level_beq g' g then (g', Datatypes.S n) :: dist'
      else (g', n) :: incr_grade dist' g
  end.

(** [grade_evaluation] *)
Definition grade_evaluation (evaluation_results : list result) : grading_report :=
  let '(graded, cs, total) := grade_loop evaluation_results in
  let overall_score :=
    match evaluation_results with
    | [] => 0
    | _ => total / inject_Z (Z.of_nat (List.length evaluation_results))
    end in
  let overall_grade := get_grade overall_score in
  let category_averages :=
    map (fun '(c, (scores, n)) =>
           (c, mkCategoryPerf (sumQ scores / inject_Z (Z.of_nat n))
                              (get_grade (sumQ scores / inject_Z (Z.of_nat n))) n))
        (filter (fun '(_, (_, n)) => Nat.ltb 0 n) cs) in
  let distribution :=
    fold_left (fun d g => incr_grade d g.(g_grade)) graded
              (map (fun g => (g, 0%nat)) all_grades) in
  mkReport (py_round2 overall_score) overall_grade (List.length evaluation_results)
           category_averages distribution graded
           (mkStats (np_mean (map g_accuracy_score graded))
                    (np_mean (map g_precision_score graded))
                    (np_mean (map g_quality_score graded))
                    (count (fun g => match g.(g_penalties) with [] => false | _ => true end) graded)
                    (count (fun g => match g.(g_bonuses) with [] => false | _ => true end) graded)).

End Report.

(** ** Properties *)

Module Facts.
Import Py Re Eval Grading.

(** *** Helper lemmas *)

Lemma Qltb_true (a b : Q) : Qltb a b = true <-> a < b.
Proof.
  unfold Qltb. rewrite negb_true_iff. split; intro H.
  - apply Qnot_le_lt. intro H'. apply Qle_bool_iff in H'. congruence.
  - destruct (Qle_bool b a) eqn:E; [|reflexivity].
    apply Qle_bool_iff in E. exfalso. apply (Qlt_not_le a b H E).
Qed.

Lemma Qle_bool_false (a b : Q) : Qle_bool a b = false <-> b < a.
Proof.
  split; intro H.
  - apply Qnot_le_lt. intro H'. apply Qle_bool_iff in H'. congruence.
  - destruct (Qle_bool a b) eqn:E; [|reflexivity].
    apply Qle_bool_iff in E. exfalso. apply (Qlt_not_le b a H E).
Qed.

Lemma Qmult_comm_eq (x y : Q) : x * y = y * x.
Proof.
  destruct x as [xn xd], y as [yn yd]. unfold Qmult. simpl.
  now rewrite Z.mul_comm, Pos.mul_comm.
Qed.

(** The hallucination check on a number, as bounds per category. *)
Lemma detect_num_iff (x : Q) (category : string) :
  detect_hallucination (VNum x) category = true <->
  (category = "percentage_threshold" /\ (x < 0 \/ 100 < x)) \/
  (category = "price_change" /\ (1000 < x \/ x < -1000)) \/
  (category = "volatility" /\ 1000 < x).
Proof.
  unfold detect_hallucination.
  destruct (String.eqb_spec category "percentage_threshold") as [->|H1];
  [|destruct (String.eqb_spec category "price_change") as [->|H2];
   [|destruct (String.eqb_spec category "volatility") as [->|H3]]]; simpl;
  repeat rewrite orb_true_iff; repeat rewrite Qltb_true.
  - destruct (Qltb 100 x || Qltb x 0) eqn:E.
    + rewrite orb_true_iff, !Qltb_true in E. intuition.
    + rewrite orb_false_iff in E. destruct E as [E1 E2].
      assert (~ 100 < x) by (rewrite <- Qltb_true; congruence).
      assert (~ x < 0) by (rewrite <- Qltb_true; congruence).
      intuition discriminate.
  - destruct (Qltb 1000 x || Qltb x (-1000)) eqn:E.
    + rewrite orb_true_iff, !Qltb_true in E. intuition.
    + rewrite orb_false_iff in E. destruct E as [E1 E2].
      assert (~ 1000 < x) by (rewrite <- Qltb_true; congruence).
      assert (~ x < -1000) by (rewrite <- Qltb_true; congruence).
      intuition discriminate.
  - destruct (Qltb 1000 x) eqn:E.
    + rewrite Qltb_true in E. intuition.
    + assert (~ 1000 < x) by (rewrite <- Qltb_true; congruence).
      intuition discriminate.
  - intuition congruence.
Qed.

Ltac qbools :=
  repeat match goal with
  | H : Qle_bool _ _ = true |- _ => apply Qle_bool_iff in H
  | H : Qle_bool _ _ = false |- _ => apply Qle_bool_false in H
  end.

Lemma threshold_of_inj (g1 g2 : grade_level) :
  threshold_of g1 == threshold_of g2 -> g1 = g2.
Proof.
  destruct g1, g2; intro H; try reflexivity; vm_compute in H; discriminate.
Qed.

Lemma get_grade_highest (s : Q) :
  0 <= s ->
  threshold_of (get_grade s) <= s /\
  (forall g', threshold_of g' <= s -> threshold_of g' <= threshold_of (get_grade s)).
Proof.
  intro Hs. unfold get_grade, grade_thresholds. cbn [first_grade].
  repeat match goal with
  | |- context [if Qle_bool ?t s then _ else _] =>
      let E := fresh "E" in destruct (Qle_bool t s) eqn:E
  end; qbools;
  (split; [vm_compute threshold_of; lra
          | intros g' Hg'; destruct g'; vm_compute threshold_of in *; lra]).
Qed.

(** *** C3 *)


(** *** C4 *)

(** C4: a numeric prediction is flagged as a hallucination exactly when
    it is outside its category's bounds: [percentage_threshold] below 0 or
    above 100, [price_change] above 1000 or below -1000, [volatility] above
    1000; boundary values are not flagged and no other category flags a
    number. *)
Theorem numeric_hallucination_bounds (x : Q) (category : string) :
  detect_hallucination (VNum x) category = true <->
  (category = "percentage_threshold" /\ (x < 0 \/ 100 < x)) \/
  (category = "price_change" /\ (1000 < x \/ x < -1000)) \/
  (category = "volatility" /\ 1000 < x).
Proof. apply detect_num_iff. Qed.

(** *** C6 *)

(** C6: a result with [error_type = missing_response] is graded 0 / F with
    only the "No response provided" feedback and no sub-scores; any other
    result flagged as a hallucination is graded 0 / F with the single
    penalty "Hallucination detected". *)
Theorem grading_early_returns (r : result) :
  (r_error_type r = "missing_response" ->
   calculate_question_score r =
     mkGrade (r_query_id r) (r_category r) F 0 0 0 0 [] [] [FbNoResponse]) /\
  (r_error_type r <> "missing_response" -> r_is_hallucination r = true ->
   calculate_question_score r =
     mkGrade (r_query_id r) (r_category r) F 0 0 0 0 ["Hallucination detected"] [] []).
Proof.
  unfold calculate_question_score. split.
  - intros ->. reflexivity.
  - intros H1 H2. destruct (String.eqb_spec (r_error_type r) "missing_response");
      [contradiction|]. now rewrite H2.
Qed.

Lemma grading_early_returns_witness :
  let r := mkResult "q" "Q?" "price_change" (VNum 3) (Some "") "agent" (Some "n/a")
             VNone false None "type_mismatch" true in
  r_error_type r <> "missing_response" /\ r_is_hallucination r = true /\
  calculate_question_score r =
    mkGrade "q" "price_change" F 0 0 0 0 ["Hallucination detected"] [] [].
Proof.
  intro r. split; [discriminate|]. split; [reflexivity|].
  apply (proj2 (grading_early_returns r)); [discriminate|reflexivity].
Defined.

(** *** C7 *)

(** C7: the final score is [round(0.6*a + 0.25*p + 0.15*q, 2)] of its
    three sub-scores, and every grade record satisfies this round trip
    (the early-return records too, whose score and sub-scores are 0). *)
Theorem final_score_round_trip :
  (forall a p q : Q,
     calculate_final_score a p q = py_round2 (0.6 * a + 0.25 * p + 0.15 * q)) /\
  (forall r : result,
     let g := calculate_question_score r in
     g_score g == py_round2 (0.6 * g_accuracy_score g + 0.25 * g_precision_score g
                             + 0.15 * g_quality_score g)).
Proof.
  assert (Hf : forall a p q : Q,
     calculate_final_score a p q = py_round2 (0.6 * a + 0.25 * p + 0.15 * q)).
  { intros a p q. unfold calculate_final_score.
    now rewrite (Qmult_comm_eq a), (Qmult_comm_eq p), (Qmult_comm_eq q). }
  split; [exact Hf|].
  intro r. unfold calculate_question_score.
  destruct (String.eqb (r_error_type r) "missing_response");
    [reflexivity|].
  destruct (r_is_hallucination r); [reflexivity|].
  cbn [g_score g_accuracy_score g_precision_score g_quality_score].
  rewrite Hf. reflexivity.
Qed.

(** *** C8 *)

(** C8: on scores in [0, 100] (indeed on every score >= 0), [_get_grade]
    returns the grade with the highest threshold the score meets, which is
    a single one of the 13 grades since the thresholds are distinct; the
    score 0 gets F. *)
Theorem grade_lookup_highest_threshold (s : Q) (g : grade_level) :
  0 <= s -> s <= 100 ->
  (get_grade s = g <->
   threshold_of g <= s /\
   (forall g', threshold_of g' <= s -> threshold_of g' <= threshold_of g)) /\
  get_grade 0 = F.
Proof.
  intros H0 _. split; [|reflexivity].
  destruct (get_grade_highest s H0) as [Hle Hmax]. split.
  - intros <-. now split.
  - intros [Hg Hgmax]. apply threshold_of_inj.
    apply Qle_antisym; [apply Hgmax; exact Hle | apply Hmax; exact Hg].
Qed.

Lemma grade_lookup_highest_threshold_witness :
  0 <= 72.5 /\ 72.5 <= 100 /\ get_grade 72.5 = B_MINUS /\ get_grade 0 = F.
Proof.
  split; [vm_compute; discriminate|]. split; [vm_compute; discriminate|].
  destruct (grade_lookup_highest_threshold 72.5 B_MINUS) as [H F0];
    [vm_compute; discriminate | vm_compute; discriminate |].
  split; [|exact F0]. apply H. split.
  - vm_compute. discriminate.
  - intros g' Hg'. destruct g'; vm_compute in Hg' |- *; try discriminate;
      exfalso; apply Hg'; reflexivity.
Defined.

(** *** Rounding half to even is monotone *)

Lemma rhe_Z (n : Z) (d : positive) :
  let k := round_half_even (n # d) in
  ((2 * k - 1) * Zpos d <= 2 * n)%Z /\ (2 * n <= (2 * k + 1) * Zpos d)%Z /\
  ((2 * n = (2 * k - 1) * Zpos d \/ 2 * n = (2 * k + 1) * Zpos d)%Z -> Z.even k = true).
Proof.
  unfold round_half_even. cbn [Qnum Qden].
  pose proof (Z.div_mod n (Zpos d) ltac:(lia)) as Hdm.
  pose proof (Z.mod_pos_bound n (Zpos d) ltac:(lia)) as Hb.
  set (fl := (n / Zpos d)%Z) in *. set (r := (n mod Zpos d)%Z) in *.
  destruct (Z.compare_spec (2 * r) (Zpos d)) as [Hc|Hc|Hc].
  - destruct (Z.even fl) eqn:E.
    + repeat split; [nia|nia|intros _; exact E].
    + repeat split; [nia|nia|]. intros _.
      rewrite Z.add_1_r, Z.even_succ, <- Z.negb_even, E. reflexivity.
  - repeat split; [nia|nia|]. intros [H|H]; nia.
  - repeat split; [nia|nia|]. intros [H|H]; nia.
Qed.

Lemma rhe_bounds (y : Q) :
  let k := inject_Z (round_half_even y) in
  2 * k - 1 <= 2 * y /\ 2 * y <= 2 * k + 1 /\
  ((2 * y == 2 * k - 1 \/ 2 * y == 2 * k + 1) -> Z.even (round_half_even y) = true).
Proof.
  destruct y as [n d]. pose proof (rhe_Z n d) as H. cbv zeta in *.
  set (k := round_half_even (n # d)) in *. destruct H as [H1 [H2 H3]].
  unfold Qle, Qeq, inject_Z; cbn -[Z.mul]. repeat split.
  - nia.
  - nia.
  - intros [E|E]; apply H3; [left|right]; nia.
Qed.

Lemma rhe_mono (x y : Q) : x <= y -> (round_half_even x <= round_half_even y)%Z.
Proof.
  intro Hxy.
  destruct (Z.le_gt_cases (round_half_even x) (round_half_even y)) as [H|H]; [exact H|].
  exfalso.
  destruct (rhe_bounds x) as [Bx1 [Bx2 Tx]]. destruct (rhe_bounds y) as [By1 [By2 Ty]].
  set (kx := round_half_even x) in *. set (ky := round_half_even y) in *.
  assert (Hk : inject_Z ky + 1 <= inject_Z kx).
  { change 1 with (inject_Z 1). rewrite <- inject_Z_plus, <- Zle_Qle. lia. }
  assert (Ex : Z.even kx = true) by (apply Tx; left; lra).
  assert (Ey : Z.even ky = true) by (apply Ty; right; lra).
  assert (Hkk : inject_Z kx == inject_Z (ky + 1)) by (rewrite inject_Z_plus; change (inject_Z 1) with (1 # 1); lra).
  apply (proj1 (inject_Z_injective kx (ky + 1))) in Hkk. rewrite Hkk in Ex.
  rewrite Z.add_1_r, Z.even_succ, <- Z.negb_even, Ey in Ex. discriminate.
Qed.

Lemma py_round2_mono (x y : Q) : x <= y -> py_round2 x <= py_round2 y.
Proof.
  intro H. unfold py_round2, Qle. cbn [Qnum Qden].
  assert (H100 : x * 100 <= y * 100) by (apply Qmult_le_compat_r; [exact H | lra]).
  pose proof (rhe_mono _ _ H100). lia.
Qed.

(** *** C9 *)

(** C9: for fixed precision and quality sub-scores, a larger accuracy
    sub-score never gives a smaller final score (for all sub-scores, in
    particular those in [0, 100]). *)
Theorem final_score_monotone_in_accuracy (a1 a2 p q : Q) :
  a1 <= a2 -> calculate_final_score a1 p q <= calculate_final_score a2 p q.
Proof.
  intro H. unfold calculate_final_score. apply py_round2_mono. lra.
Qed.

Lemma final_score_monotone_in_accuracy_witness :
  60 <= 95 /\ calculate_final_score 60 100 100 <= calculate_final_score 95 100 100.
Proof.
  split; [vm_compute; discriminate|].
  apply final_score_monotone_in_accuracy. vm_compute. discriminate.
Defined.

(** *** The ranking extractor *)

Lemma leqb_eq (a b : list ascii) : leqb a b = true <-> a = b.
Proof.
  revert b. induction a as [|c a IH]; intros [|d b]; simpl;
    try (split; congruence).
  rewrite andb_true_iff, IH, Ascii.eqb_eq. split.
  - intros [-> ->]. reflexivity.
  - intro H. injection H as -> ->. split; reflexivity.
Qed.

Lemma mem_In (w : list ascii) (l : list (list ascii)) : mem w l = true <-> In w l.
Proof.
  unfold mem. rewrite existsb_exists. split.
  - intros [x [Hx E]]. apply leqb_eq in E. subst. exact Hx.
  - intro H. exists w. split; [exact H|]. apply leqb_eq. reflexivity.
Qed.

Lemma mem_app (w : list ascii) (a b : list (list ascii)) :
  mem w (app a b) = mem w a || mem w b.
Proof. unfold mem. apply existsb_app. Qed.

(** The second pass appends, in the order of the token list, the tokens
    present in the text and absent from the first pass. *)
Lemma second_pass_fold (t : list ascii) (toks found : list (list ascii)) :
  NoDup toks ->
  fold_left (fun found tok =>
               if contains tok t && negb (mem tok found)
               then app found [tok] else found) toks found =
  app found (filter (fun tok => contains tok t && negb (mem tok found)) toks).
Proof.
  revert found. induction toks as [|x rest IH]; intros found Hnd.
  - simpl. now rewrite app_nil_r.
  - inversion Hnd as [|x' rest' Hx Hrest]; subst. simpl.
    destruct (contains x t && negb (mem x found)) eqn:C.
    + rewrite IH by exact Hrest. rewrite <- app_assoc. simpl. f_equal. f_equal.
      apply filter_ext_in. intros tok Htok. rewrite mem_app.
      assert (Hne : leqb tok x = false).
      { destruct (leqb tok x) eqn:E; [|reflexivity].
        apply leqb_eq in E. subst. contradiction. }
      unfold mem at 2. simpl. rewrite Hne. simpl. now rewrite orb_false_r.
    + apply IH. exact Hrest.
Qed.

Lemma default_tokens_nodup : NoDup (map L default_tokens).
Proof.
  vm_compute. repeat constructor; simpl; intuition discriminate.
Qed.

(** *** C5 *)

(** C5: on "Ranked by average close price: ETH, TAO, SOL." the ranking
    extractor returns [ETH; TAO; SOL]; and whenever the second pass runs
    (the first pass found one or two tokens), it appends the missing tokens
    found in the cleaned text in the canonical order SOL, ETH, TAO. *)
Theorem ranking_example_and_fallback_order (text : string) :
  normalize_ranking "Ranked by average close price: ETH, TAO, SOL." =
    VList ["ETH"; "TAO"; "SOL"] /\
  (let t := ranking_clean text in
   let first := ranking_first_pass t in
   (0 < List.length first < 3)%nat ->
   normalize_ranking text =
     VList (map S_ (app first
                      (filter (fun tok => contains tok t && negb (mem tok first))
                              (map L default_tokens))))).
Proof.
  split; [vm_compute; reflexivity|]. cbv zeta. intro H.
  unfold normalize_ranking.
  destruct (is_empty text) eqn:E.
  { destruct text; [|discriminate E]. exfalso. compute in H. lia. }
  cbv zeta.
  destruct (ranking_first_pass (ranking_clean text)) as [|w ws] eqn:Ef;
    [simpl in H; lia|].
  destruct (Nat.ltb_spec (List.length (w :: ws)) 3) as [_|Hl]; [|lia].
  unfold ranking_second_pass.
  rewrite (second_pass_fold _ _ _ default_tokens_nodup). reflexivity.
Qed.

Lemma ranking_example_and_fallback_order_witness :
  (0 < List.length (ranking_first_pass
         (ranking_clean "Ranked by average close price: ETH, TAO, SOL.")) < 3)%nat /\
  normalize_ranking "Ranked by average close price: ETH, TAO, SOL." =
    VList (map S_ (app [L "ETH"; L "TAO"] [L "SOL"])).
Proof.
  assert (H : (0 < List.length (ranking_first_pass
         (ranking_clean "Ranked by average close price: ETH, TAO, SOL.")) < 3)%nat)
    by (vm_compute; lia).
  split; [exact H|].
  rewrite (proj2 (ranking_example_and_fallback_order
                    "Ranked by average close price: ETH, TAO, SOL.") H).
  vm_compute. reflexivity.
Defined.

(** *** Results of [evaluate_agent_response] and [run_evaluation] *)

Lemma bind_ok {X Y} (x : outcome X) (f : X -> outcome Y) (b : Y) :
  bind x f = Ok b -> exists a, x = Ok a /\ f a = Ok b.
Proof. destruct x as [a|e]; simpl; [eauto | discriminate]. Qed.

Lemma evaluate_fields (queries : list query) (qid resp name : string) (r : result) :
  evaluate_agent_response queries qid resp name = Ok r ->
  r_predicted r = extract_predicted (r_category r) (S_ (lower (L (r_question r)))) resp /\
  r_correct r = acc_correct (calculate_accuracy (r_predicted r) (r_truth r) (r_category r)) /\
  r_error_type r = acc_error_type (calculate_accuracy (r_predicted r) (r_truth r) (r_category r)) /\
  r_is_hallucination r = detect_hallucination (r_predicted r) (r_category r).
Proof.
  unfold evaluate_agent_response. intro H. apply bind_ok in H as [q [_ H]].
  destruct (q_explanation q); [|discriminate]. injection H as <-.
  repeat split; reflexivity.
Qed.

Lemma fold_left_inv {X Y} (P : X -> Prop) (f : X -> Y -> X) (l : list Y) (init : X) :
  (forall acc y, In y l -> P acc -> P (f acc y)) -> P init -> P (fold_left f l init).
Proof.
  revert init. induction l as [|y l IH]; intros init Hstep Hinit; simpl; [exact Hinit|].
  apply IH; [intros acc y' Hy'; apply Hstep; right; exact Hy'|].
  apply Hstep; [left; reflexivity | exact Hinit].
Qed.

(** A ranking holds only tokens of the valid set. *)
Lemma normalize_ranking_valid (text : string) (l : list string) :
  normalize_ranking text = VList l -> forallb (fun tok => smem tok valid_tokens) l = true.
Proof.
  set (P := fun acc : list (list ascii) => forall w, In w acc -> In w (map L default_tokens)).
  assert (Hfirst : forall t, P (ranking_first_pass t)).
  { intro t. unfold ranking_first_pass. apply fold_left_inv; [|intros w []].
    intros acc w _ Hacc. destruct (mem w (map L default_tokens) && negb (mem w acc)) eqn:C;
      [|exact Hacc].
    apply andb_true_iff in C as [C _]. apply mem_In in C.
    intros w' Hw'. apply in_app_or in Hw' as [Hw'|[<-|[]]]; [apply Hacc; exact Hw' | exact C]. }
  assert (Hsecond : forall t found, P found -> P (ranking_second_pass t found)).
  { intros t found Hf. unfold ranking_second_pass. apply fold_left_inv; [|exact Hf].
    intros acc tok Htok Hacc. destruct (contains tok t && negb (mem tok acc));
      [|exact Hacc].
    intros w' Hw'. apply in_app_or in Hw' as [Hw'|[<-|[]]]; [apply Hacc; exact Hw' | exact Htok]. }
  unfold normalize_ranking. destruct (is_empty text); [discriminate|]. cbv zeta.
  set (found := match ranking_first_pass (ranking_clean text) with
                | [] => ranking_first_pass (ranking_clean text)
                | _ :: _ => if Nat.ltb (List.length (ranking_first_pass (ranking_clean text))) 3
                            then ranking_second_pass (ranking_clean text)
                                   (ranking_first_pass (ranking_clean text))
                            else ranking_first_pass (ranking_clean text)
                end).
  assert (Hfound : P found).
  { subst found. destruct (ranking_first_pass (ranking_clean text)) eqn:E.
    - rewrite <- E. apply Hfirst.
    - rewrite <- E. destruct (Nat.ltb _ 3); [apply Hsecond|]; apply Hfirst. }
  intro H.
  assert (Hl : l = map S_ found)
    by (destruct found; [discriminate | injection H as <-; reflexivity]).
  subst l. apply forallb_forall. intros tok Htok. apply in_map_iff in Htok as [w' [<- Hw']].
  apply Hfound in Hw'. apply in_map_iff in Hw' as [tok [<- Htok]].
  unfold S_, L. rewrite string_of_list_ascii_of_string.
  unfold smem. apply existsb_exists. exists tok. split; [exact Htok|].
  apply String.eqb_refl.
Qed.

Ltac split_ifs :=
  repeat match goal with
  | |- context [if ?b then _ else _] => destruct b
  | |- context [match ?x with Some _ => _ | None => _ end] => destruct x
  end.

(** Only the ranking extractor produces a list. *)
Lemma extract_list_ranking (category question text : string) (l : list string) :
  extract_predicted category question text = VList l -> normalize_ranking text = VList l.
Proof.
  unfold extract_predicted.
  assert (Hp : extract_numeric_percentage text <> VList l)
    by (unfold extract_numeric_percentage; split_ifs; discriminate).
  assert (Hn : extract_plain_number text <> VList l)
    by (unfold extract_plain_number; cbv zeta; split_ifs; discriminate).
  assert (Ht : extract_token_name text <> VList l)
    by (unfold extract_token_name; split_ifs; discriminate).
  assert (Hd : extract_date_from_text text <> VList l)
    by (unfold extract_date_from_text; split_ifs; discriminate).
  split_ifs; intro H; try exact H; try contradiction; discriminate.
Qed.

Lemma extract_other_category (category question text : string) :
  ~ In category ["percentage_threshold"; "price_change"; "volatility";
                 "volume_analysis"; "performance_comparison"; "price_analysis"] ->
  extract_predicted category question text = VNone.
Proof.
  intro H. unfold extract_predicted, smem. simpl.
  repeat match goal with
  | |- context [String.eqb category ?c] =>
      destruct (String.eqb_spec category c) as [->|_];
        [exfalso; apply H; simpl; tauto|]
  end.
  reflexivity.
Qed.

Lemma collect_inv (all qs : list query) (rs : responses) (name : string)
    (results : list result) :
  collect all qs rs name = Ok results ->
  forall r, In r results ->
  r_error_type r = "missing_response" \/
  (r_predicted r = VNone -> r_is_hallucination r = true).
Proof.
  revert results. induction qs as [|q qs IH]; intros results H r Hr; simpl in H.
  - injection H as <-. destruct Hr.
  - apply bind_ok in H as [r0 [H0 H]]. apply bind_ok in H as [rest [Hrest H]].
    injection H as <-. destruct Hr as [<-|Hr]; [|exact (IH rest Hrest r Hr)].
    destruct (lookup rs (q_id q)) as [resp|].
    + right. apply evaluate_fields in H0 as [_ [_ [_ Hh]]]. intro Hp.
      rewrite Hh, Hp. reflexivity.
    + injection H0 as <-. left. reflexivity.
Qed.

(** *** Concrete stores used below *)

Definition date_store : list query :=
  [mkQuery "peak_date" "On which date did SOL reach its highest close?" "price_analysis"
           (VStr "2025-06-12") (Some "")].
Definition date_response : string := "SOL reached its highest close on 2025-06-12.".


Definition mixed_store : list query :=
  [mkQuery "sol_streak" "What was SOL's longest streak of up days?" "streak_analysis"
           (VNum 4) (Some "");
   mkQuery "pct_eth_below" "On what percentage of days did ETH close below $1000?"
           "percentage_threshold" (VNum 0) (Some "");
   mkQuery "top_token" "Which token had the highest average volume?" "volume_analysis"
           (VStr "ETH") (Some "");
   mkQuery "eth_change" "How much did ETH change over the period?" "price_change"
           (VNum (-2.3)) (Some "")].
Definition mixed_responses : responses :=
  [("sol_streak", "4 days"); ("top_token", "eth, by far");
   ("eth_change", "ETH decreased by about 2.31%")].

(** *** C1 *)

(** C1: the code breaks the invariant; a correct answer can be flagged.
    On a [price_analysis] date question whose true answer is 2025-06-12,
    the response naming that date is judged correct and yet flagged,
    because the detector checks strings against a literal allow-list that
    holds only the dates 2025-06-11 and 2025-06-23. *)
Lemma correct_date_flagged_counterexample :
  ~ (forall (queries : list query) (qid resp name : string) (r : result),
       evaluate_agent_response queries qid resp name = Ok r ->
       r_correct r = true -> r_is_hallucination r = false).
Proof.
  intro H. specialize (H date_store "peak_date" date_response "agent").
  destruct (evaluate_agent_response date_store "peak_date" date_response "agent") eqn:E.
  - specialize (H a eq_refl). vm_compute in E. injection E as <-.
    specialize (H eq_refl). discriminate H.
  - vm_compute in E. discriminate E.
Qed.

(** *** C2 *)

(** C2: for a query whose category is none of the six handled ones (for
    example [streak_analysis]), no extractor runs: whatever the response,
    the result has no prediction, is incorrect with [type_mismatch], and
    is flagged as a hallucination. *)
Theorem unhandled_category_no_extraction (queries : list query)
    (qid resp name : string) (r : result) :
  evaluate_agent_response queries qid resp name = Ok r ->
  ~ In (r_category r) ["percentage_threshold"; "price_change"; "volatility";
                       "volume_analysis"; "performance_comparison"; "price_analysis"] ->
  r_predicted r = VNone /\ r_correct r = false /\
  r_error_type r = "type_mismatch" /\ r_is_hallucination r = true.
Proof.
  intros H Hcat. destruct (evaluate_fields _ _ _ _ _ H) as [Hp [Hc [He Hh]]].
  rewrite (extract_other_category _ _ _ Hcat) in Hp.
  rewrite Hp in Hc, He, Hh. rewrite Hc, He, Hh.
  split; [exact Hp|]. destruct (r_truth r); repeat split; reflexivity.
Qed.

Lemma unhandled_category_no_extraction_witness :
  match evaluate_agent_response mixed_store "sol_streak" "4 days" "agent" with
  | Ok r =>
      ~ In (r_category r) ["percentage_threshold"; "price_change"; "volatility";
                           "volume_analysis"; "performance_comparison"; "price_analysis"] /\
      r_predicted r = VNone /\ r_correct r = false /\
      r_error_type r = "type_mismatch" /\ r_is_hallucination r = true
  | Raise _ => False
  end.
Proof.
  destruct (evaluate_agent_response mixed_store "sol_streak" "4 days" "agent") eqn:E.
  - assert (Hcat : ~ In (r_category a)
                     ["percentage_threshold"; "price_change"; "volatility";
                      "volume_analysis"; "performance_comparison"; "price_analysis"]).
    { vm_compute in E. injection E as <-. simpl. intuition discriminate. }
    split; [exact Hcat|]. exact (unhandled_category_no_extraction _ _ _ _ _ E Hcat).
  - vm_compute in E. discriminate E.
Defined.

(** *** C10 *)

(** C10: for every result of [run_evaluation], the grading quality score is
    0 when an early return is taken (missing response or hallucination) and
    exactly 100 otherwise: the sub-scores are only computed for results
    that are not flagged and have a prediction. *)
Theorem pipeline_quality_score_0_or_100 (queries : list query) (rs : responses)
    (name : string) (s : summary) :
  run_evaluation queries rs name = Ok s ->
  forall r, In r (s_results s) ->
  let g := calculate_question_score r in
  ((r_error_type r = "missing_response" \/ r_is_hallucination r = true) /\
   g_quality_score g == 0) \/
  (r_is_hallucination r = false /\ r_predicted r <> VNone /\ g_quality_score g == 100).
Proof.
  unfold run_evaluation. intros H r Hr. apply bind_ok in H as [results [Hc H]].
  injection H as <-. simpl in Hr.
  destruct (collect_inv _ _ _ _ _ Hc r Hr) as [Hm|Hinv]; cbv zeta.
  - left. split; [left; exact Hm|]. unfold calculate_question_score.
    rewrite Hm. reflexivity.
  - unfold calculate_question_score.
    destruct (String.eqb_spec (r_error_type r) "missing_response") as [Hm|Hm].
    { left. split; [left; exact Hm | reflexivity]. }
    destruct (r_is_hallucination r) eqn:Eh.
    { left. split; [right; reflexivity | reflexivity]. }
    right. assert (Hp : r_predicted r <> VNone) by (intro Hp; specialize (Hinv Hp); discriminate).
    split; [reflexivity|]. split; [exact Hp|]. cbn [g_quality_score].
    unfold calculate_quality_score. rewrite Eh.
    destruct (r_predicted r) as [|x|s0|l]; [contradiction| | |];
      destruct (r_correct r); try destruct (r_absolute_error r) as [e|];
      try destruct (Qle_bool e 0.1); vm_compute; reflexivity.
Qed.

Lemma pipeline_quality_score_0_or_100_witness :
  match run_evaluation mixed_store mixed_responses "agent" with
  | Ok s =>
      forall r, In r (s_results s) ->
      let g := calculate_question_score r in
      ((r_error_type r = "missing_response" \/ r_is_hallucination r = true) /\
       g_quality_score g == 0) \/
      (r_is_hallucination r = false /\ r_predicted r <> VNone /\ g_quality_score g == 100)
  | Raise _ => False
  end.
Proof.
  destruct (run_evaluation mixed_store mixed_responses "agent") eqn:E.
  - exact (pipeline_quality_score_0_or_100 _ _ _ _ E).
  - vm_compute in E. discriminate E.
Defined.

End Facts.

(** ** Further properties of the evaluator and the grading scale *)

Module Extra.
Import Py Re Eval Grading Report Facts.

(** *** Helper lemmas *)

Lemma clamp_range (q : Q) : 0 <= py_max 0 (py_min 100 q) /\ py_max 0 (py_min 100 q) <= 100.
Proof.
  unfold py_max, py_min, Qltb.
  repeat match goal with
  | |- context [Qle_bool ?a ?b] => let E := fresh "E" in destruct (Qle_bool a b) eqn:E
  end; simpl in *; qbools; split; lra.
Qed.

Lemma accuracy_score_range (r : result) :
  0 <= calculate_accuracy_score r /\ calculate_accuracy_score r <= 100 /\
  (r_correct r = true <-> calculate_accuracy_score r == 100).
Proof.
  unfold calculate_accuracy_score.
  destruct (r_correct r).
  { split; [discriminate|]. split; [discriminate|]. split; reflexivity. }
  destruct (String.eqb (r_error_type r) "numeric_error");
    [destruct (r_absolute_error r) as [e|]; [destruct (r_truth r)|] |];
  repeat match goal with
  | |- context [if ?b then _ else _] => destruct b
  end;
  (split; [discriminate|]; split; [discriminate|]);
  split; intro H; (discriminate || (vm_compute in H; discriminate)).
Qed.

Lemma precision_score_values (r : result) :
  (calculate_precision_score r == 0 <-> r_predicted r = VNone) /\
  (calculate_precision_score r == 0 \/ calculate_precision_score r == 50 \/
   calculate_precision_score r == 100).
Proof.
  unfold calculate_precision_score.
  destruct (r_predicted r) as [|x|s0|l];
    [| | destruct (smem s0 _); [|destruct (Nat.eqb _ 10)] | destruct l];
  (split; [split; intro H; (reflexivity || discriminate || (vm_compute in H; discriminate))|]);
  (left; reflexivity) || (right; left; reflexivity) || (right; right; reflexivity).
Qed.

Lemma quality_range (r : result) :
  0 <= calculate_quality_score r /\ calculate_quality_score r <= 100.
Proof. unfold calculate_quality_score. apply clamp_range. Qed.

Lemma score_range (r : result) :
  0 <= g_score (calculate_question_score r) /\ g_score (calculate_question_score r) <= 100.
Proof.
  unfold calculate_question_score.
  destruct (String.eqb (r_error_type r) "missing_response");
    [split; discriminate|].
  destruct (r_is_hallucination r); [split; discriminate|].
  cbn [g_score]. unfold calculate_final_score.
  destruct (accuracy_score_range r) as [Ha1 [Ha2 _]].
  destruct (precision_score_values r) as [_ Hp].
  destruct (quality_range r) as [Hq1 Hq2].
  set (a := calculate_accuracy_score r) in *.
  set (p := calculate_precision_score r) in *.
  set (q := calculate_quality_score r) in *.
  assert (Hp' : 0 <= p <= 100) by (destruct Hp as [H|[H|H]]; rewrite H; split; discriminate).
  split.
  - apply Qle_trans with (py_round2 0); [discriminate|]. apply py_round2_mono. lra.
  - apply Qle_trans with (py_round2 100); [|discriminate]. apply py_round2_mono. lra.
Qed.

(** *** X1: the accuracy sub-score *)

(** X1: the accuracy sub-score is in [0, 100], and it is 100 exactly when
    the result is correct (every incorrect case scores at most 95). *)
Theorem accuracy_score_bounds_and_full_marks (r : result) :
  0 <= calculate_accuracy_score r /\ calculate_accuracy_score r <= 100 /\
  (r_correct r = true <-> calculate_accuracy_score r == 100).
Proof. apply accuracy_score_range. Qed.

(** *** X2: the precision sub-score *)

(** X2: the precision sub-score is always 0, 50 or 100, and it is 0
    exactly when there is no prediction. *)
Theorem precision_score_three_levels (r : result) :
  (calculate_precision_score r == 0 <-> r_predicted r = VNone) /\
  (calculate_precision_score r == 0 \/ calculate_precision_score r == 50 \/
   calculate_precision_score r == 100).
Proof. apply precision_score_values. Qed.

(** *** X3: the quality sub-score *)

(** X3: the clamp of [_calculate_quality_score] never bites from below:
    the score is at least 20. It is 100 exactly when the result is not
    flagged and has a prediction; otherwise the penalties leave it at
    80 or less. *)
Theorem quality_score_full_iff_unflagged_answered (r : result) :
  (calculate_quality_score r == 100 <->
     r_is_hallucination r = false /\ r_predicted r <> VNone) /\
  20 <= calculate_quality_score r /\
  (calculate_quality_score r < 100 -> calculate_quality_score r <= 80).
Proof.
  unfold calculate_quality_score.
  destruct (r_is_hallucination r), (r_predicted r) as [|x|s0|l], (r_correct r);
    try (destruct (r_absolute_error r) as [e|]; [destruct (Qle_bool e 0.1)|]);
    cbv zeta; cbn iota;
    match goal with
    | |- context [py_max 0 (py_min 100 ?q)] =>
        let v := eval vm_compute in (py_max 0 (py_min 100 q)) in
        replace (py_max 0 (py_min 100 q)) with v by (vm_compute; reflexivity)
    end;
    (split; [split; [intro H | intros [H1 H2]] | split; [| intro H]]);
    first
      [ vm_compute in H; discriminate H
      | discriminate H1
      | exfalso; apply H2; reflexivity
      | split; [reflexivity | discriminate]
      | vm_compute; reflexivity
      | vm_compute; discriminate ].
Qed.

(** *** X4: the question score and its grade *)

(** X4: for every result, the score [calculate_question_score] gives is
    in [0, 100] and its grade is the grade lookup of that score (the early
    returns included: score 0, grade F). *)
Theorem question_score_bounds_and_grade (r : result) :
  let g := calculate_question_score r in
  0 <= g_score g /\ g_score g <= 100 /\ g_grade g = get_grade (g_score g).
Proof.
  cbv zeta. destruct (score_range r) as [H1 H2]. split; [exact H1|]. split; [exact H2|].
  unfold calculate_question_score.
  destruct (String.eqb (r_error_type r) "missing_response"); [reflexivity|].
  destruct (r_is_hallucination r); reflexivity.
Qed.

(** *** X5: the grade lookup is monotone *)

(** X5: a higher score never gets a grade with a lower threshold. *)
Theorem grade_monotone (s1 s2 : Q) :
  s1 <= s2 -> threshold_of (get_grade s1) <= threshold_of (get_grade s2).
Proof.
  intro H. destruct (Qlt_le_dec s1 0) as [Hneg|Hpos].
  - assert (HF : get_grade s1 = F).
    { unfold get_grade, grade_thresholds. cbn [first_grade].
      repeat match goal with
      | |- context [if Qle_bool ?t s1 then _ else _] =>
          let E := fresh "E" in destruct (Qle_bool t s1) eqn:E
      end; qbools; try reflexivity; exfalso; lra. }
    rewrite HF. destruct (get_grade s2); vm_compute; discriminate.
  - destruct (get_grade_highest s1 Hpos) as [H1 _].
    destruct (get_grade_highest s2 ltac:(lra)) as [_ H2].
    apply H2. lra.
Qed.

Lemma grade_monotone_witness :
  45 <= 72.5 /\ threshold_of (get_grade 45) <= threshold_of (get_grade 72.5).
Proof.
  split; [vm_compute; discriminate|]. apply grade_monotone. vm_compute. discriminate.
Defined.

(** *** X6: failing grades *)

(** X6: the grade is F exactly when the score is below 40; negative scores
    fall through the table and get F too. *)
Theorem grade_F_iff_below_40 (s : Q) : get_grade s = F <-> s < 40.
Proof.
  unfold get_grade, grade_thresholds. cbn [first_grade].
  repeat match goal with
  | |- context [if Qle_bool ?t s then _ else _] =>
      let E := fresh "E" in destruct (Qle_bool t s) eqn:E
  end; qbools; split; intro H; try discriminate; try reflexivity; lra.
Qed.

(** *** Helpers on the extractors *)

Lemma normalize_ranking_found (text : string) (l : list string) :
  normalize_ranking text = VList l ->
  exists found, l = map S_ found /\ found <> [] /\
    (found = ranking_first_pass (ranking_clean text) \/
     found = ranking_second_pass (ranking_clean text) (ranking_first_pass (ranking_clean text))).
Proof.
  unfold normalize_ranking. destruct (is_empty text); [discriminate|]. cbv zeta.
  destruct (ranking_first_pass (ranking_clean text)) as [|w ws] eqn:Ef; [discriminate|].
  destruct (Nat.ltb (List.length (w :: ws)) 3).
  - destruct (ranking_second_pass (ranking_clean text) (w :: ws)) as [|x xs] eqn:Es;
      [discriminate|].
    intro H. injection H as <-. exists (x :: xs). split; [reflexivity|].
    split; [discriminate|]. right. reflexivity.
  - intro H. injection H as <-. exists (w :: ws). split; [reflexivity|].
    split; [discriminate|]. left. reflexivity.
Qed.

Lemma NoDup_snoc {X} (l : list X) (x : X) : NoDup l -> ~ In x l -> NoDup (app l [x]).
Proof.
  intros H Hx. apply NoDup_app; [exact H | repeat constructor; intros [] |].
  intros a Ha [<-|[]]. contradiction.
Qed.

Lemma first_pass_nodup (t : list ascii) : NoDup (ranking_first_pass t).
Proof.
  unfold ranking_first_pass. apply fold_left_inv; [|constructor].
  intros acc w _ Hacc. destruct (mem w (map L default_tokens) && negb (mem w acc)) eqn:C;
    [|exact Hacc].
  apply andb_true_iff in C as [_ C]. apply negb_true_iff in C.
  apply NoDup_snoc; [exact Hacc|]. intro Hin. apply mem_In in Hin. congruence.
Qed.

Lemma second_pass_nodup (t : list ascii) (found : list (list ascii)) :
  NoDup found -> NoDup (ranking_second_pass t found).
Proof.
  intro Hf. unfold ranking_second_pass. apply fold_left_inv; [|exact Hf].
  intros acc w _ Hacc. destruct (contains w t && negb (mem w acc)) eqn:C; [|exact Hacc].
  apply andb_true_iff in C as [_ C]. apply negb_true_iff in C.
  apply NoDup_snoc; [exact Hacc|]. intro Hin. apply mem_In in Hin. congruence.
Qed.

Lemma S_inj (a b : list ascii) : S_ a = S_ b -> a = b.
Proof.
  unfold S_. intro H. apply (f_equal list_ascii_of_string) in H.
  now rewrite !list_ascii_of_string_of_list_ascii in H.
Qed.

Lemma NoDup_map_S (l : list (list ascii)) : NoDup l -> NoDup (map S_ l).
Proof.
  induction 1 as [|x l Hx Hl IH]; simpl; constructor; [|exact IH].
  intro Hin. apply in_map_iff in Hin as [y [Hy Hyl]]. apply S_inj in Hy. subst. contradiction.
Qed.

Lemma accuracy_never_missing (p t : value) (c : string) :
  String.eqb (acc_error_type (calculate_accuracy p t c)) "missing_response" = false.
Proof. destruct p, t; reflexivity. Qed.

(** *** X7: a correct, unflagged answer gets full marks *)

(** X7: when [evaluate_agent_response] marks an answer correct and does
    not flag it, the grading scale gives it the score 100 and the grade
    A+: all three sub-scores are 100. *)
Theorem correct_unflagged_full_marks (queries : list query) (qid resp name : string)
    (r : result) :
  evaluate_agent_response queries qid resp name = Ok r ->
  r_correct r = true -> r_is_hallucination r = false ->
  g_score (calculate_question_score r) == 100 /\ g_grade (calculate_question_score r) = A_PLUS.
Proof.
  intros H Hcor Hfl. destruct (evaluate_fields _ _ _ _ _ H) as [Hp [Hc [He Hh]]].
  assert (Hnm : String.eqb (r_error_type r) "missing_response" = false)
    by (rewrite He; apply accuracy_never_missing).
  assert (Hne : r_predicted r <> VNone).
  { intro E. rewrite Hc, E in Hcor. destruct (r_truth r); discriminate Hcor. }
  assert (Ha : calculate_accuracy_score r = 100)
    by (unfold calculate_accuracy_score; rewrite Hcor; reflexivity).
  assert (Hq : calculate_quality_score r = 100).
  { unfold calculate_quality_score. rewrite Hfl, Hcor.
    destruct (r_predicted r); [contradiction| | |]; try reflexivity.
    destruct (r_absolute_error r) as [e|]; [destruct (Qle_bool e 0.1)|]; reflexivity. }
  assert (Hpr : calculate_precision_score r = 100).
  { unfold calculate_precision_score. rewrite Hh in Hfl.
    destruct (r_predicted r) as [|x|s0|l] eqn:Ep; [contradiction|reflexivity| |].
    - cbn [detect_hallucination] in Hfl. unfold string_allow_list, smem in Hfl.
      cbn [existsb] in Hfl.
      repeat match type of Hfl with
      | context [String.eqb s0 ?c] =>
          destruct (String.eqb_spec s0 c) as [->|_]; [reflexivity|]
      end.
      discriminate Hfl.
    - symmetry in Hp. apply extract_list_ranking, normalize_ranking_found in Hp.
      destruct Hp as [found [-> [Hf _]]].
      destruct found; [contradiction|reflexivity]. }
  unfold calculate_question_score. rewrite Hnm. rewrite Hh in Hfl |- *. rewrite Hfl.
  cbn [g_score g_grade]. rewrite Ha, Hpr, Hq. split; vm_compute; reflexivity.
Qed.

Lemma correct_unflagged_full_marks_witness :
  match evaluate_agent_response mixed_store "eth_change" "ETH decreased by about 2.31%" "agent" with
  | Ok r =>
      r_correct r = true /\ r_is_hallucination r = false /\
      g_score (calculate_question_score r) == 100 /\
      g_grade (calculate_question_score r) = A_PLUS
  | Raise _ => False
  end.
Proof.
  destruct (evaluate_agent_response mixed_store "eth_change" "ETH decreased by about 2.31%" "agent")
    eqn:E.
  - assert (Hc : r_correct a = true) by (vm_compute in E; injection E as <-; reflexivity).
    assert (Hh : r_is_hallucination a = false)
      by (vm_compute in E; injection E as <-; reflexivity).
    split; [exact Hc|]. split; [exact Hh|].
    exact (correct_unflagged_full_marks _ _ _ _ _ E Hc Hh).
  - vm_compute in E. discriminate E.
Defined.

(** *** X8: shape of a ranking *)

(** X8: a ranking returned by [_normalize_ranking] is never empty, has no
    repeated token, and holds only SOL, ETH and TAO. *)
Theorem ranking_nonempty_distinct_valid (text : string) (l : list string) :
  normalize_ranking text = VList l ->
  l <> [] /\ NoDup l /\ Forall (fun tok => In tok valid_tokens) l.
Proof.
  intro H. pose proof (normalize_ranking_valid _ _ H) as Hv.
  apply normalize_ranking_found in H as [found [-> [Hf Hcases]]].
  split; [destruct found; [contradiction|discriminate]|]. split.
  - apply NoDup_map_S. destruct Hcases as [->| ->];
      [apply first_pass_nodup | apply second_pass_nodup, first_pass_nodup].
  - apply Forall_forall. intros tok Htok. rewrite forallb_forall in Hv.
    specialize (Hv tok Htok). unfold smem in Hv. apply existsb_exists in Hv as [x [Hx E]].
    apply String.eqb_eq in E. subst. exact Hx.
Qed.

Lemma ranking_nonempty_distinct_valid_witness :
  normalize_ranking "tao > eth > tao > sol" = VList ["TAO"; "ETH"; "SOL"] /\
  ["TAO"; "ETH"; "SOL"] <> [] /\ NoDup ["TAO"; "ETH"; "SOL"] /\
  Forall (fun tok => In tok valid_tokens) ["TAO"; "ETH"; "SOL"].
Proof.
  assert (H : normalize_ranking "tao > eth > tao > sol" = VList ["TAO"; "ETH"; "SOL"])
    by (vm_compute; reflexivity).
  split; [exact H|]. exact (ranking_nonempty_distinct_valid _ _ H).
Defined.

(** *** Helpers on [run_evaluation] *)

(** The largest finite double, [(2^53 - 1) * 2^971]: an [int] of at most
    this magnitude converts to [float] without [OverflowError]. *)
Definition max_float : Q := inject_Z (2 ^ 1024 - 2 ^ 971).

(** Every numeric truth of the store is within the range of a double. *)
Definition truths_in_float_range (qs : list query) : bool :=
  forallb (fun q => match q_truth q with
                    | VNum t => Qle_bool (Qabs t) max_float
                    | _ => true
                    end) qs.

Lemma evaluate_shape (all : list query) (qid resp name : string) (r : result) :
  evaluate_agent_response all qid resp name = Ok r ->
  exists q e, find_query all qid = Ok q /\ q_explanation q = Some e /\
    r = mkResult qid (q_question q) (q_category q) (q_truth q) (Some e) name (Some resp)
          (extract_predicted (q_category q) (S_ (lower (L (q_question q)))) resp)
          (acc_correct (calculate_accuracy
             (extract_predicted (q_category q) (S_ (lower (L (q_question q)))) resp)
             (q_truth q) (q_category q)))
          (acc_absolute_error (calculate_accuracy
             (extract_predicted (q_category q) (S_ (lower (L (q_question q)))) resp)
             (q_truth q) (q_category q)))
          (acc_error_type (calculate_accuracy
             (extract_predicted (q_category q) (S_ (lower (L (q_question q)))) resp)
             (q_truth q) (q_category q)))
          (detect_hallucination
             (extract_predicted (q_category q) (S_ (lower (L (q_question q)))) resp)
             (q_category q)).
Proof.
  unfold evaluate_agent_response. intro H. apply bind_ok in H as [q [Hq H]].
  destruct (q_explanation q) as [e|] eqn:Ee; [|discriminate]. injection H as <-.
  exists q, e. repeat split; assumption || reflexivity.
Qed.

Lemma evaluate_raise (all : list query) (qid resp name : string) (e : py_error) :
  evaluate_agent_response all qid resp name = Raise e ->
  (find_query all qid = Raise ValueError /\ e = ValueError) \/
  (exists q, find_query all qid = Ok q /\ q_explanation q = None /\ e = KeyError).
Proof.
  unfold evaluate_agent_response. destruct (find_query all qid) as [q|e'] eqn:Ef; simpl.
  - destruct (q_explanation q) eqn:Ee; intro H; [discriminate|].
    injection H as <-. right. exists q. auto.
  - intro H. injection H as <-. left. unfold find_query in Ef.
    destruct (find _ all); [discriminate|]. injection Ef as <-. auto.
Qed.

Lemma collect_align (all qs : list query) (rs : responses) (name : string)
    (results : list result) :
  collect all qs rs name = Ok results ->
  Forall2 (fun q r => r_query_id r = q_id q /\
                      (lookup rs (q_id q) = None <-> r_error_type r = "missing_response"))
          qs results.
Proof.
  revert results. induction qs as [|q qs IH]; intros results H; simpl in H.
  - injection H as <-. constructor.
  - apply bind_ok in H as [r0 [H0 H]]. apply bind_ok in H as [rest [Hrest H]].
    injection H as <-. constructor; [|exact (IH rest Hrest)].
    destruct (lookup rs (q_id q)) as [resp|].
    + pose proof (evaluate_fields _ _ _ _ _ H0) as [_ [_ [He _]]].
      apply evaluate_shape in H0 as [q' [e [_ [_ ->]]]]. cbn [r_query_id]. split; [reflexivity|].
      split; [discriminate|]. cbn [r_error_type] in He |- *. intro Hm.
      pose proof (accuracy_never_missing
        (extract_predicted (q_category q') (S_ (lower (L (q_question q')))) resp)
        (q_truth q') (q_category q')) as Hn.
      rewrite Hm in Hn. discriminate Hn.
    + injection H0 as <-. split; [reflexivity | split; intros _; reflexivity].
Qed.

Lemma collect_raise (all qs : list query) (rs : responses) (name : string) (e : py_error) :
  collect all qs rs name = Raise e ->
  exists q resp, In q qs /\ lookup rs (q_id q) = Some resp /\
    evaluate_agent_response all (q_id q) resp name = Raise e.
Proof.
  induction qs as [|q qs IH]; simpl; [discriminate|].
  destruct (lookup rs (q_id q)) as [resp|] eqn:El.
  - destruct (evaluate_agent_response all (q_id q) resp name) as [r0|e0] eqn:Ev; simpl.
    + destruct (collect all qs rs name) eqn:Ec; simpl; [discriminate|].
      intro H. injection H as ->. destruct (IH eq_refl) as [q' [resp' [Hin Hq']]].
      exists q', resp'. split; [right; exact Hin | exact Hq'].
    + intro H. injection H as ->. exists q, resp. split; [left; reflexivity|]. auto.
  - simpl. destruct (collect all qs rs name) eqn:Ec; simpl; [discriminate|].
    intro H. injection H as ->. destruct (IH eq_refl) as [q' [resp' [Hin Hq']]].
    exists q', resp'. split; [right; exact Hin | exact Hq'].
Qed.

Lemma accuracy_abs_error_nonneg (p t : value) (c : string) (e : Q) :
  acc_absolute_error (calculate_accuracy p t c) = Some e -> 0 <= e.
Proof.
  destruct t as [|t| |], p as [|p| |]; cbn [calculate_accuracy acc_absolute_error];
    intro H; try discriminate.
  assert (E : e = Qabs (p - t)) by congruence. rewrite E. apply Qabs_nonneg.
Qed.

Lemma collect_abs_error (all qs : list query) (rs : responses) (name : string)
    (results : list result) :
  collect all qs rs name = Ok results ->
  forall r e, In r results -> r_absolute_error r = Some e -> 0 <= e.
Proof.
  revert results. induction qs as [|q qs IH]; intros results H r e Hr He; simpl in H.
  - injection H as <-. destruct Hr.
  - apply bind_ok in H as [r0 [H0 H]]. apply bind_ok in H as [rest [Hrest H]].
    injection H as <-. destruct Hr as [<-|Hr]; [|exact (IH rest Hrest r e Hr He)].
    destruct (lookup rs (q_id q)) as [resp|].
    + apply evaluate_shape in H0 as [q' [e' [_ [_ ->]]]]. cbn [r_absolute_error] in He.
      exact (accuracy_abs_error_nonneg _ _ _ _ He).
    + injection H0 as <-. discriminate He.
Qed.

Lemma count_le {X} (p : X -> bool) (l : list X) : (count p l <= List.length l)%nat.
Proof.
  unfold count. induction l as [|x l IH]; simpl; [lia|]. destruct (p x); simpl; lia.
Qed.

Lemma pct_range (n t : nat) :
  (n <= t)%nat ->
  0 <= (if Nat.ltb 0 t then inject_Z (Z.of_nat n) / inject_Z (Z.of_nat t) * 100 else 0) /\
  (if Nat.ltb 0 t then inject_Z (Z.of_nat n) / inject_Z (Z.of_nat t) * 100 else 0) <= 100.
Proof.
  intro Hnt. destruct (Nat.ltb_spec 0 t) as [Ht|Ht]; [|split; lra].
  assert (Hn0 : 0 <= inject_Z (Z.of_nat n))
    by (change 0 with (inject_Z 0); rewrite <- Zle_Qle; lia).
  assert (Ht0 : 0 < inject_Z (Z.of_nat t))
    by (change 0 with (inject_Z 0); rewrite <- Zlt_Qlt; lia).
  assert (Hnt' : inject_Z (Z.of_nat n) <= inject_Z (Z.of_nat t))
    by (rewrite <- Zle_Qle; lia).
  split.
  - apply Qmult_le_0_compat; [|lra]. apply Qle_shift_div_l; [exact Ht0|]. lra.
  - assert (Hd : inject_Z (Z.of_nat n) / inject_Z (Z.of_nat t) <= 1)
      by (apply Qle_shift_div_r; [exact Ht0 | lra]).
    assert (H0d : 0 <= inject_Z (Z.of_nat n) / inject_Z (Z.of_nat t))
      by (apply Qle_shift_div_l; [exact Ht0 | lra]).
    nra.
Qed.

Lemma fold_Qplus_nonneg (l : list Q) (a : Q) :
  0 <= a -> (forall x, In x l -> 0 <= x) -> 0 <= fold_left Qplus l a.
Proof.
  intros Ha Hl. apply (fold_left_inv (fun s => 0 <= s)); [|exact Ha].
  intros acc x Hx Hacc. specialize (Hl x Hx). lra.
Qed.

(** *** X9: which token [_extract_token_name] reports *)

(** X9: [_extract_token_name] reports a token only when that token occurs
    in the upper-cased text; SOL wins whenever it occurs, whatever else the
    text names; and the result is [None] exactly when none of SOL, ETH and
    TAO occurs. *)
Theorem token_name_priority (text : string) :
  (forall tok, extract_token_name text = VStr tok ->
     In tok default_tokens /\ contains (L tok) (upper (L text)) = true) /\
  (contains (L "SOL") (upper (L text)) = true -> extract_token_name text = VStr "SOL") /\
  (extract_token_name text = VNone <->
     Forall (fun tok => contains (L tok) (upper (L text)) = false) default_tokens).
Proof.
  unfold extract_token_name. destruct (is_empty text) eqn:Ee.
  - destruct text; [|discriminate]. split; [discriminate|].
    split; [vm_compute; discriminate|]. split; [intros _|reflexivity].
    repeat constructor.
  - cbv zeta. split; [|split].
    + intros tok H. destruct (find _ default_tokens) as [t|] eqn:Ef; [|discriminate].
      injection H as <-. apply find_some in Ef. exact Ef.
    + intro H. unfold default_tokens. cbn [find]. rewrite H. reflexivity.
    + unfold default_tokens. cbn [find].
      destruct (contains (L "SOL") (upper (L text))) eqn:E1;
        [split; [discriminate | intro H; inversion H; congruence]|].
      destruct (contains (L "ETH") (upper (L text))) eqn:E2;
        [split; [discriminate | intro H; inversion H as [|? ? ? H']; inversion H'; congruence]|].
      destruct (contains (L "TAO") (upper (L text))) eqn:E3;
        [split; [discriminate | intro H; inversion H as [|? ? ? H'];
                 inversion H' as [|? ? ? H'']; inversion H''; congruence]|].
      split; [intros _; repeat constructor; assumption | reflexivity].
Qed.

(** *** X10: decrease words make the plain number non-positive *)

(** X10: when the text, lower-cased and stripped of [$] and of the
    qualifier words, contains "decrease", "decreased" or "down", the number
    [_extract_plain_number] returns is never positive: a positive match is
    negated, a negative or zero one is kept. *)
Theorem plain_number_decrease_nonpositive (text : string) (v : Q) :
  (contains (L "decrease") (sub qualifiers_re [] (sub (RLit (L "$")) [] (lower (L text))))
   || contains (L "decreased") (sub qualifiers_re [] (sub (RLit (L "$")) [] (lower (L text))))
   || contains (L "down") (sub qualifiers_re [] (sub (RLit (L "$")) [] (lower (L text)))))
  = true ->
  extract_plain_number text = VNum v -> v <= 0.
Proof.
  intros Hneg Hv. unfold extract_plain_number in Hv.
  destruct (is_empty text); [discriminate|]. cbv zeta in Hv. rewrite Hneg in Hv.
  destruct (search number_re empty_re _) as [g|]; [|discriminate].
  destruct (Qltb 0 (parse_float g)) eqn:E; simpl in Hv; injection Hv as <-.
  - apply Qltb_true in E. lra.
  - unfold Qltb in E. apply negb_false_iff, Qle_bool_iff in E. exact E.
Qed.

Lemma plain_number_decrease_nonpositive_witness :
  extract_plain_number "SOL went down $2.30" = VNum (-(230 # 100)) /\ -(230 # 100) <= 0.
Proof.
  assert (H : extract_plain_number "SOL went down $2.30" = VNum (-(230 # 100)))
    by (vm_compute; reflexivity).
  split; [exact H|]. apply (plain_number_decrease_nonpositive "SOL went down $2.30");
    [vm_compute; reflexivity | exact H].
Defined.

(** *** X11: [run_evaluation] keeps one result per query, in order *)

(** X11: when [run_evaluation] succeeds, it has one result per query of
    the store, in the store's order and with the query's id; the total is
    the number of queries; and a result has the error type
    "missing_response" exactly when the agent gave no response for its id. *)
Theorem run_evaluation_alignment (qs : list query) (rs : responses) (name : string)
    (s : summary) :
  run_evaluation qs rs name = Ok s ->
  s_total_queries s = List.length qs /\
  map r_query_id (s_results s) = map q_id qs /\
  Forall2 (fun q r => lookup rs (q_id q) = None <-> r_error_type r = "missing_response")
          qs (s_results s).
Proof.
  unfold run_evaluation. intro H. apply bind_ok in H as [results [Hc H]].
  injection H as <-. cbn [s_total_queries s_results].
  apply collect_align in Hc. split; [|split].
  - symmetry. exact (Forall2_length Hc).
  - induction Hc as [|q r qs' rs' [Hid _] _ IH]; simpl; [reflexivity|].
    rewrite Hid, IH. reflexivity.
  - induction Hc as [|q r qs' rs' [_ Hm] _ IH]; constructor; assumption.
Qed.

Lemma run_evaluation_alignment_witness :
  match run_evaluation mixed_store mixed_responses "agent" with
  | Ok s =>
      s_total_queries s = List.length mixed_store /\
      map r_query_id (s_results s) = map q_id mixed_store /\
      Forall2 (fun q r => lookup mixed_responses (q_id q) = None <->
                          r_error_type r = "missing_response")
              mixed_store (s_results s)
  | Raise _ => False
  end.
Proof.
  destruct (run_evaluation mixed_store mixed_responses "agent") as [s|e] eqn:E.
  - exact (run_evaluation_alignment _ _ _ _ E).
  - vm_compute in E. discriminate E.
Defined.

(** *** X12: the only error [run_evaluation] raises *)

(** X12: on a store whose numeric truths lie within the range of a
    double, [run_evaluation] never raises [ValueError] (every id it looks
    up comes from the store itself); it raises only [KeyError], and only
    when some query that the agent answered has no explanation. The range
    condition matters for the source, not for this model: numbers are exact
    rationals here, while in Python an [int] truth too large for a float
    makes [abs(predicted - truth)] raise [OverflowError]. *)
Theorem run_evaluation_raises_only_keyerror (qs : list query) (rs : responses)
    (name : string) (e : py_error) :
  truths_in_float_range qs = true ->
  run_evaluation qs rs name = Raise e ->
  e = KeyError /\
  exists q, In q qs /\ lookup rs (q_id q) <> None /\ q_explanation q = None.
Proof.
  intros _. unfold run_evaluation. destruct (collect qs qs rs name) as [results|e0] eqn:Ec;
    simpl; [discriminate|]. intro H. injection H as ->.
  apply collect_raise in Ec as [q [resp [Hin [Hl Hev]]]].
  apply evaluate_raise in Hev as [[Hf _]|[q' [Hf [Hx ->]]]].
  - exfalso. unfold find_query in Hf.
    destruct (find (fun q0 => String.eqb (q_id q0) (q_id q)) qs) eqn:Ef; [discriminate|].
    pose proof (find_none _ _ Ef q Hin) as Hq. simpl in Hq.
    rewrite String.eqb_refl in Hq. discriminate.
  - split; [reflexivity|]. unfold find_query in Hf.
    destruct (find (fun q0 => String.eqb (q_id q0) (q_id q)) qs) eqn:Ef; [|discriminate].
    injection Hf as ->. apply find_some in Ef as [Hin' Hid].
    apply String.eqb_eq in Hid. exists q'. split; [exact Hin'|]. split; [|exact Hx].
    rewrite Hid, Hl. discriminate.
Qed.

Lemma run_evaluation_raises_only_keyerror_witness :
  truths_in_float_range
    [mkQuery "q1" "How much did SOL change?" "price_change" (VNum 1) None] = true /\
  run_evaluation
    [mkQuery "q1" "How much did SOL change?" "price_change" (VNum 1) None]
    [("q1", "up 1 dollar")] "agent" = Raise KeyError /\
  KeyError = KeyError /\
  exists q, In q [mkQuery "q1" "How much did SOL change?" "price_change" (VNum 1) None] /\
    lookup [("q1", "up 1 dollar")] (q_id q) <> None /\ q_explanation q = None.
Proof.
  assert (Hf : truths_in_float_range
    [mkQuery "q1" "How much did SOL change?" "price_change" (VNum 1) None] = true)
    by (vm_compute; reflexivity).
  assert (H : run_evaluation
    [mkQuery "q1" "How much did SOL change?" "price_change" (VNum 1) None]
    [("q1", "up 1 dollar")] "agent" = Raise KeyError) by (vm_compute; reflexivity).
  split; [exact Hf|]. split; [exact H|].
  exact (run_evaluation_raises_only_keyerror _ _ _ _ Hf H).
Defined.

(** *** X13: the summary's counts and rates *)

(** X13: in the summary of [run_evaluation], the correct answers and the
    hallucinations number at most the total; the accuracy percentage and
    the hallucination rate lie between 0 and 100 (both 0 for an empty
    store); the average absolute error is never negative. *)
Theorem run_evaluation_summary_bounds (qs : list query) (rs : responses) (name : string)
    (s : summary) :
  run_evaluation qs rs name = Ok s ->
  (s_correct_answers s <= s_total_queries s)%nat /\
  (s_hallucination_count s <= s_total_queries s)%nat /\
  0 <= s_accuracy_percentage s <= 100 /\ 0 <= s_hallucination_rate s <= 100 /\
  (s_total_queries s = 0%nat -> s_accuracy_percentage s = 0 /\ s_hallucination_rate s = 0) /\
  0 <= s_average_absolute_error s.
Proof.
  unfold run_evaluation. intro H. apply bind_ok in H as [results [Hc H]].
  injection H as <-. cbn [s_total_queries s_correct_answers s_hallucination_count
    s_accuracy_percentage s_hallucination_rate s_average_absolute_error].
  split; [apply count_le|]. split; [apply count_le|].
  split; [apply pct_range, count_le|]. split; [apply pct_range, count_le|].
  split; [intro H0; rewrite H0; split; reflexivity|].
  destruct (flat_map _ results) as [|x xs] eqn:Ef; [lra|].
  unfold mean. unfold Qdiv. apply Qmult_le_0_compat.
  - apply fold_Qplus_nonneg; [lra|]. intros y Hy. rewrite <- Ef in Hy.
    apply in_flat_map in Hy as [r [Hr Hy]].
    destruct (r_absolute_error r) as [e|] eqn:He; [|destruct Hy].
    destruct Hy as [<-|[]]. exact (collect_abs_error _ _ _ _ _ Hc r e Hr He).
  - apply Qinv_le_0_compat. change 0 with (inject_Z 0). rewrite <- Zle_Qle. lia.
Qed.

Lemma run_evaluation_summary_bounds_witness :
  match run_evaluation mixed_store mixed_responses "agent" with
  | Ok s =>
      (s_correct_answers s <= s_total_queries s)%nat /\
      (s_hallucination_count s <= s_total_queries s)%nat /\
      0 <= s_accuracy_percentage s <= 100 /\ 0 <= s_hallucination_rate s <= 100 /\
      (s_total_queries s = 0%nat -> s_accuracy_percentage s = 0 /\ s_hallucination_rate s = 0) /\
      0 <= s_average_absolute_error s
  | Raise _ => False
  end.
Proof.
  destruct (run_evaluation mixed_store mixed_responses "agent") as [s|e] eqn:E.
  - exact (run_evaluation_summary_bounds _ _ _ _ E).
  - vm_compute in E. discriminate E.
Defined.

(** *** Helpers on [grade_evaluation] *)

Lemma smem_In (w : string) (l : list string) : smem w l = true <-> In w l.
Proof.
  unfold smem. rewrite existsb_exists. split.
  - intros [x [Hx E]]. apply String.eqb_eq in E. subst. exact Hx.
  - intro H. exists w. split; [exact H | apply String.eqb_refl].
Qed.

Lemma grade_level_beq_iff (a b : grade_level) : grade_level_beq a b = true <-> a = b.
Proof. destruct a, b; split; intro H; (reflexivity || discriminate H). Qed.

(** One iteration of the loop of [grade_evaluation]. *)
Definition grade_step (acc : list grade_record * category_table * Q) (r : result)
    : list grade_record * category_table * Q :=
  let '(graded, cs, total) := acc in
  let g := calculate_question_score r in
  (app graded [g], add_category_score cs r.(r_category) g.(g_score), total + g.(g_score)).

Lemma grade_loop_eq (rs : list result) : grade_loop rs = fold_left grade_step rs ([], [], 0).
Proof. reflexivity. Qed.

Lemma inject_nat_succ (n : nat) :
  inject_Z (Z.of_nat (Datatypes.S n)) == inject_Z (Z.of_nat n) + 1.
Proof. rewrite Nat2Z.inj_succ. unfold Z.succ. rewrite inject_Z_plus. reflexivity. Qed.

Lemma inject_nat_nonneg (n : nat) : 0 <= inject_Z (Z.of_nat n).
Proof. change 0 with (inject_Z 0). rewrite <- Zle_Qle. lia. Qed.

Lemma grade_loop_fold (rs : list result) :
  forall g0 cs0 t0 g cs t,
  fold_left grade_step rs (g0, cs0, t0) = (g, cs, t) ->
  g = app g0 (map calculate_question_score rs) /\
  t0 <= t /\ t <= t0 + inject_Z (Z.of_nat (List.length rs)) * 100.
Proof.
  induction rs as [|r rs IH]; intros g0 cs0 t0 g cs t H; simpl in H.
  - injection H as <- <- <-. rewrite app_nil_r. split; [reflexivity|].
    cbn [List.length Z.of_nat]. change (inject_Z 0) with 0. lra.
  - destruct (IH _ _ _ _ _ _ H) as [Hg [Ht1 Ht2]]. rewrite Hg, <- app_assoc.
    split; [reflexivity|]. destruct (score_range r) as [Hs1 Hs2].
    cbn [List.length]. rewrite inject_nat_succ. split; lra.
Qed.

Lemma sumQ_bounds (l : list Q) :
  (forall x, In x l -> 0 <= x /\ x <= 100) ->
  0 <= sumQ l /\ sumQ l <= inject_Z (Z.of_nat (List.length l)) * 100.
Proof.
  unfold sumQ. intro Hl.
  enough (G : forall a, a <= fold_left Qplus l a /\
                        fold_left Qplus l a <= a + inject_Z (Z.of_nat (List.length l)) * 100)
    by (destruct (G 0); lra).
  induction l as [|x l IH]; intro a; cbn [fold_left List.length];
    [change (inject_Z (Z.of_nat 0)) with 0; lra|].
  destruct (Hl x (or_introl eq_refl)) as [Hx1 Hx2].
  destruct (IH (fun y Hy => Hl y (or_intror Hy)) (a + x)) as [H1 H2].
  rewrite inject_nat_succ. split; lra.
Qed.

Lemma mean_range (t n : Q) :
  0 < n -> 0 <= t -> t <= n * 100 -> 0 <= t / n /\ t / n <= 100.
Proof.
  intros Hn Ht1 Ht2. split.
  - apply Qle_shift_div_l; [exact Hn | lra].
  - apply Qle_shift_div_r; [exact Hn | lra].
Qed.

Lemma incr_model (K : list grade_level) (f : grade_level -> nat) (g' : grade_level) :
  NoDup K ->
  incr_grade (map (fun g => (g, f g)) K) g' =
  map (fun g => (g, if grade_level_beq g g' then Datatypes.S (f g) else f g)) K.
Proof.
  induction K as [|k K IH]; intro HK; [reflexivity|]. inversion HK as [|? ? Hk HK'].
  cbn [map incr_grade]. destruct (grade_level_beq k g') eqn:E.
  - apply grade_level_beq_iff in E. subst k. f_equal. apply map_ext_in. intros g Hg.
    destruct (grade_level_beq g g') eqn:E'; [|reflexivity].
    apply grade_level_beq_iff in E'. subst. contradiction.
  - f_equal. exact (IH HK').
Qed.

Lemma all_grades_nodup : NoDup all_grades.
Proof. unfold all_grades. repeat constructor; simpl; intuition discriminate. Qed.

Lemma count_cons {X} (p : X -> bool) (x : X) (l : list X) :
  count p (x :: l) = ((if p x then 1 else 0) + count p l)%nat.
Proof. unfold count. simpl. destruct (p x); reflexivity. Qed.

Lemma dist_fold (xs : list grade_record) (f : grade_level -> nat) :
  fold_left (fun d g => incr_grade d g.(g_grade)) xs (map (fun g => (g, f g)) all_grades) =
  map (fun g => (g, (f g + count (fun x => grade_level_beq (g_grade x) g) xs)%nat)) all_grades.
Proof.
  revert f. induction xs as [|x xs IH]; intro f; cbn [fold_left].
  - apply map_ext. intro g. unfold count. cbn [filter List.length].
    rewrite Nat.add_0_r. reflexivity.
  - rewrite (incr_model _ _ _ all_grades_nodup), (IH (fun g => _)).
    apply map_ext. intro g. rewrite count_cons. f_equal.
    destruct (grade_level_beq g (g_grade x)) eqn:E1;
      destruct (grade_level_beq (g_grade x) g) eqn:E2; try lia.
    + apply grade_level_beq_iff in E1. subst. rewrite (proj2 (grade_level_beq_iff _ _) eq_refl) in E2.
      discriminate.
    + apply grade_level_beq_iff in E2. subst. rewrite (proj2 (grade_level_beq_iff _ _) eq_refl) in E1.
      discriminate.
Qed.

Lemma list_sum_map_add {X} (a b : X -> nat) (l : list X) :
  list_sum (map (fun x => (a x + b x)%nat) l) = (list_sum (map a l) + list_sum (map b l))%nat.
Proof. induction l as [|x l IH]; simpl; [reflexivity|]. rewrite IH. lia. Qed.

Lemma dist_sum (xs : list grade_record) :
  list_sum (map (fun g => count (fun x => grade_level_beq (g_grade x) g) xs) all_grades) =
  List.length xs.
Proof.
  induction xs as [|x xs IH]; [reflexivity|].
  rewrite (map_ext _ (fun g => ((if grade_level_beq (g_grade x) g then 1 else 0) +
                                count (fun y => grade_level_beq (g_grade y) g) xs)%nat))
    by (intro g; exact (count_cons (fun y => grade_level_beq (g_grade y) g) x xs)).
  rewrite list_sum_map_add, IH. cbn [List.length]. destruct (g_grade x); reflexivity.
Qed.

Lemma count_map {X Y} (p : Y -> bool) (h : X -> Y) (l : list X) :
  count p (map h l) = count (fun x => p (h x)) l.
Proof. induction l as [|x l IH]; [reflexivity|]. cbn [map]. rewrite !count_cons, IH. reflexivity. Qed.

Lemma count_ext {X} (p q : X -> bool) (l : list X) :
  (forall x, p x = q x) -> count p l = count q l.
Proof. intro H. unfold count. f_equal. apply filter_ext. exact H. Qed.

Lemma first_graded (rs : list result) :
  exists cs t, fold_left grade_step rs ([], [], 0) = (map calculate_question_score rs, cs, t) /\
               0 <= t /\ t <= inject_Z (Z.of_nat (List.length rs)) * 100.
Proof.
  destruct (fold_left grade_step rs ([], [], 0)) as [[g cs] t] eqn:E.
  destruct (grade_loop_fold _ _ _ _ _ _ _ E) as [-> [H1 H2]].
  exists cs, t. split; [reflexivity | split; lra].
Qed.

(** The categories in order of first appearance, and the scores of one
    category in the order of the results. *)
Definition first_categories (rs : list result) : list string :=
  fold_left (fun acc r => if smem r.(r_category) acc then acc else app acc [r.(r_category)])
            rs [].

Definition cat_scores (rs : list result) (c : string) : list Q :=
  map (fun r => g_score (calculate_question_score r))
      (filter (fun r => String.eqb r.(r_category) c) rs).

Lemma first_categories_snoc (xs : list result) (r : result) :
  first_categories (app xs [r]) =
  if smem r.(r_category) (first_categories xs) then first_categories xs
  else app (first_categories xs) [r.(r_category)].
Proof. unfold first_categories. rewrite fold_left_app. reflexivity. Qed.

Lemma first_categories_spec (rs : list result) :
  NoDup (first_categories rs) /\
  forall c, In c (first_categories rs) <-> exists r, In r rs /\ r_category r = c.
Proof.
  induction rs as [|r xs IH] using rev_ind.
  - split; [constructor|]. intro c. split; [intros []|intros [r [[] _]]].
  - destruct IH as [Hnd Hin]. rewrite first_categories_snoc.
    destruct (smem (r_category r) (first_categories xs)) eqn:E.
    + apply smem_In in E. split; [exact Hnd|]. intro c. rewrite Hin. split.
      * intros [r' [Hr' Hc]]. exists r'. split; [apply in_or_app; left; exact Hr' | exact Hc].
      * intros [r' [Hr' Hc]]. apply in_app_or in Hr' as [Hr'|[<-|[]]]; [eauto|].
        subst. apply Hin. exact E.
    + split.
      * apply NoDup_snoc; [exact Hnd|]. intro H. apply smem_In in H. congruence.
      * intro c. rewrite in_app_iff, Hin. split.
        -- intros [[r' [Hr' Hc]]|[<-|[]]].
           ++ exists r'. split; [apply in_or_app; left; exact Hr' | exact Hc].
           ++ exists r. split; [apply in_or_app; right; left; reflexivity | reflexivity].
        -- intros [r' [Hr' Hc]]. apply in_app_or in Hr' as [Hr'|[<-|[]]];
             [left; eauto | right; left; exact Hc].
Qed.

Lemma cat_scores_snoc (xs : list result) (r : result) (c : string) :
  cat_scores (app xs [r]) c =
  if String.eqb (r_category r) c
  then app (cat_scores xs c) [g_score (calculate_question_score r)]
  else cat_scores xs c.
Proof.
  unfold cat_scores. rewrite filter_app, map_app. simpl.
  destruct (String.eqb (r_category r) c); simpl; [reflexivity | apply app_nil_r].
Qed.

Lemma cat_scores_absent (xs : list result) (c : string) :
  ~ In c (first_categories xs) -> cat_scores xs c = [].
Proof.
  intro Hc. unfold cat_scores.
  destruct (filter (fun r => String.eqb (r_category r) c) xs) as [|r l] eqn:E; [reflexivity|].
  exfalso. apply Hc, first_categories_spec. exists r.
  assert (Hr : In r (filter (fun r => String.eqb (r_category r) c) xs))
    by (rewrite E; left; reflexivity).
  apply filter_In in Hr as [Hr Hrc]. apply String.eqb_eq in Hrc. eauto.
Qed.

Lemma cat_scores_present (xs : list result) (c : string) :
  In c (first_categories xs) -> cat_scores xs c <> [].
Proof.
  intro Hc. apply first_categories_spec in Hc as [r [Hr Hrc]]. unfold cat_scores.
  intro E. apply map_eq_nil in E.
  assert (H : In r (filter (fun r => String.eqb (r_category r) c) xs))
    by (apply filter_In; split; [exact Hr | apply String.eqb_eq; exact Hrc]).
  rewrite E in H. destruct H.
Qed.

Lemma add_model (K : list string) (f : string -> list Q) (c : string) (sc : Q) :
  NoDup K -> (~ In c K -> f c = []) ->
  add_category_score (map (fun k => (k, (f k, List.length (f k)))) K) c sc =
  map (fun k => (k, ((if String.eqb k c then app (f k) [sc] else f k),
                     List.length (if String.eqb k c then app (f k) [sc] else f k))))
      (if smem c K then K else app K [c]).
Proof.
  induction K as [|k K IH]; intros HK Habs.
  - cbn. rewrite String.eqb_refl, (Habs (fun H => H)). reflexivity.
  - inversion HK as [|? ? Hk HK']. cbn [map add_category_score smem existsb].
    destruct (String.eqb_spec k c) as [->|Hne].
    + rewrite String.eqb_refl. cbn [orb map]. rewrite String.eqb_refl.
      rewrite length_app, Nat.add_1_r. f_equal. apply map_ext_in. intros k' Hk'.
      destruct (String.eqb_spec k' c); [subst; contradiction | reflexivity].
    + rewrite IH; [| exact HK' | intro Hn; apply Habs; intros [E|E]; [congruence | contradiction]].
      destruct (String.eqb_spec c k) as [E|_]; [congruence|]. cbn [orb].
      unfold smem. destruct (existsb (String.eqb c) K); cbn [app map];
        destruct (String.eqb_spec k c); try contradiction; reflexivity.
Qed.

Lemma table_model (rs : list result) :
  snd (fst (fold_left grade_step rs ([], [], 0))) =
  map (fun c => (c, (cat_scores rs c, List.length (cat_scores rs c)))) (first_categories rs).
Proof.
  induction rs as [|r xs IH] using rev_ind; [reflexivity|].
  rewrite fold_left_app. destruct (fold_left grade_step xs ([], [], 0)) as [[g cs] t].
  cbn [fst snd] in IH. cbn [fold_left grade_step fst snd]. subst cs.
  destruct (first_categories_spec xs) as [Hnd _].
  rewrite add_model; [| exact Hnd | apply cat_scores_absent].
  rewrite first_categories_snoc. apply map_ext. intro k.
  rewrite cat_scores_snoc, String.eqb_sym. reflexivity.
Qed.

Lemma filter_all {X} (p : X -> bool) (l : list X) :
  (forall x, In x l -> p x = true) -> filter p l = l.
Proof.
  induction l as [|x l IH]; intro H; simpl; [reflexivity|].
  rewrite (H x (or_introl eq_refl)), IH; [reflexivity|]. intros y Hy. exact (H y (or_intror Hy)).
Qed.

Lemma filter_none {X} (p : X -> bool) (l : list X) :
  (forall x, In x l -> p x = false) -> filter p l = [].
Proof.
  induction l as [|x l IH]; intro H; simpl; [reflexivity|].
  rewrite (H x (or_introl eq_refl)). apply IH. intros y Hy. exact (H y (or_intror Hy)).
Qed.

Lemma perf_eq (rs : list result) :
  gr_category_performance (grade_evaluation rs) =
  map (fun c => (c, mkCategoryPerf
                      (sumQ (cat_scores rs c) / inject_Z (Z.of_nat (List.length (cat_scores rs c))))
                      (get_grade (sumQ (cat_scores rs c) /
                                  inject_Z (Z.of_nat (List.length (cat_scores rs c)))))
                      (List.length (cat_scores rs c))))
      (first_categories rs).
Proof.
  pose proof (table_model rs) as Hm. unfold grade_evaluation. rewrite grade_loop_eq.
  destruct (fold_left grade_step rs ([], [], 0)) as [[g cs] t]. cbn [fst snd] in Hm. subst cs.
  cbn [gr_category_performance].
  rewrite filter_all.
  - rewrite map_map. reflexivity.
  - intros [c [sc n]] H. apply in_map_iff in H as [c' [E Hc']]. injection E as -> <- <-.
    apply Nat.ltb_lt. destruct (cat_scores rs c) eqn:Es; [|simpl; lia].
    exfalso. exact (cat_scores_present rs c Hc' Es).
Qed.

(** *** X14: the graded results and the grade distribution *)

(** X14: [grade_evaluation] grades every result with
    [calculate_question_score], in order; its distribution lists all
    thirteen grades in definition order, each with the number of results
    graded with it, so the counts add up to the number of results; no
    question is ever counted as having a bonus, and a question counts as
    penalised exactly when it was answered and flagged as a hallucination. *)
Theorem grade_evaluation_distribution (rs : list result) :
  gr_detailed_results (grade_evaluation rs) = map calculate_question_score rs /\
  gr_total_questions (grade_evaluation rs) = List.length rs /\
  gr_grade_distribution (grade_evaluation rs) =
    map (fun g => (g, count (fun x => grade_level_beq (g_grade x) g)
                            (map calculate_question_score rs))) all_grades /\
  list_sum (map snd (gr_grade_distribution (grade_evaluation rs))) = List.length rs /\
  st_questions_with_bonuses (gr_summary_stats (grade_evaluation rs)) = 0%nat /\
  st_questions_with_penalties (gr_summary_stats (grade_evaluation rs)) =
    count (fun r => negb (String.eqb (r_error_type r) "missing_response") &&
                    r_is_hallucination r) rs.
Proof.
  destruct (first_graded rs) as [cs [t [E _]]].
  unfold grade_evaluation. rewrite grade_loop_eq, E.
  cbn [gr_detailed_results gr_total_questions gr_grade_distribution gr_summary_stats
       st_questions_with_bonuses st_questions_with_penalties].
  rewrite (dist_fold _ (fun _ => 0%nat)). cbn [Nat.add].
  split; [reflexivity|]. split; [reflexivity|]. split; [reflexivity|]. split.
  - rewrite map_map. cbn [snd]. rewrite dist_sum, length_map. reflexivity.
  - rewrite !count_map. split.
    + unfold count. rewrite filter_none; [reflexivity|].
      intros r _. unfold calculate_question_score.
      destruct (String.eqb _ _), (r_is_hallucination r); reflexivity.
    + apply count_ext. intro r. unfold calculate_question_score.
      destruct (String.eqb _ _), (r_is_hallucination r); reflexivity.
Qed.

(** *** X15: the overall score *)

(** X15: the overall score of [grade_evaluation] always lies between 0
    and 100; with no results it is 0 with grade F, the three sub-score
    averages are [nan] (here [None]) and there is no category; with at
    least one result the three averages are numbers. *)
Theorem grade_evaluation_overall (rs : list result) :
  0 <= gr_overall_score (grade_evaluation rs) <= 100 /\
  (rs = [] ->
   gr_overall_score (grade_evaluation rs) == 0 /\ gr_overall_grade (grade_evaluation rs) = F /\
   st_average_accuracy_score (gr_summary_stats (grade_evaluation rs)) = None /\
   st_average_precision_score (gr_summary_stats (grade_evaluation rs)) = None /\
   st_average_quality_score (gr_summary_stats (grade_evaluation rs)) = None /\
   gr_category_performance (grade_evaluation rs) = []) /\
  (rs <> [] ->
   st_average_accuracy_score (gr_summary_stats (grade_evaluation rs)) <> None /\
   st_average_precision_score (gr_summary_stats (grade_evaluation rs)) <> None /\
   st_average_quality_score (gr_summary_stats (grade_evaluation rs)) <> None).
Proof.
  split; [|split].
  - destruct (first_graded rs) as [cs [t [E [Ht1 Ht2]]]].
    unfold grade_evaluation. rewrite grade_loop_eq, E. cbn [gr_overall_score].
    assert (R0 : py_round2 0 == 0) by (vm_compute; reflexivity).
    assert (R100 : py_round2 100 == 100) by (vm_compute; reflexivity).
    destruct rs as [|r rs'].
    + rewrite R0. lra.
    + assert (Hn : 0 < inject_Z (Z.of_nat (List.length (r :: rs'))))
        by (change 0 with (inject_Z 0); rewrite <- Zlt_Qlt; simpl; lia).
      destruct (mean_range t _ Hn Ht1 Ht2) as [H1 H2].
      pose proof (py_round2_mono _ _ H1). pose proof (py_round2_mono _ _ H2). lra.
  - intros ->. vm_compute. repeat split; reflexivity.
  - intro Hne. destruct (first_graded rs) as [cs [t [E _]]].
    unfold grade_evaluation. rewrite grade_loop_eq, E.
    cbn [gr_summary_stats st_average_accuracy_score st_average_precision_score
         st_average_quality_score].
    destruct rs as [|r rs']; [contradiction|]. cbn [map np_mean].
    repeat split; discriminate.
Qed.

(** *** X16: the category table *)

(** X16: the category performance of [grade_evaluation] has one entry per
    category that occurs among the results, no category twice; an entry's
    count is the number of results of that category, and its average score
    is the mean of their question scores, between 0 and 100. *)
Theorem grade_evaluation_categories (rs : list result) :
  NoDup (map fst (gr_category_performance (grade_evaluation rs))) /\
  (forall c, In c (map fst (gr_category_performance (grade_evaluation rs))) <->
             exists r, In r rs /\ r_category r = c) /\
  (forall c cp, In (c, cp) (gr_category_performance (grade_evaluation rs)) ->
     cp_count cp = count (fun r => String.eqb (r_category r) c) rs /\
     cp_average_score cp ==
       sumQ (map (fun r => g_score (calculate_question_score r))
                 (filter (fun r => String.eqb (r_category r) c) rs)) /
       inject_Z (Z.of_nat (cp_count cp)) /\
     0 <= cp_average_score cp <= 100).
Proof.
  rewrite perf_eq. destruct (first_categories_spec rs) as [Hnd Hin].
  rewrite map_map. cbn [fst]. rewrite map_id. split; [exact Hnd|]. split; [exact Hin|].
  intros c cp H. apply in_map_iff in H as [c' [E Hc']]. injection E as -> <-.
  cbn [cp_count cp_average_score]. split; [unfold count, cat_scores; apply length_map|].
  split; [reflexivity|].
  pose proof (cat_scores_present rs c Hc') as Hne.
  assert (Hn : 0 < inject_Z (Z.of_nat (List.length (cat_scores rs c)))).
  { destruct (cat_scores rs c); [contradiction|].
    change 0 with (inject_Z 0). rewrite <- Zlt_Qlt. simpl. lia. }
  destruct (sumQ_bounds (cat_scores rs c)) as [H1 H2].
  - intros x Hx. unfold cat_scores in Hx. apply in_map_iff in Hx as [r [<- _]].
    apply score_range.
  - apply mean_range; assumption.
Qed.

End Extra.
